(** * Calibration analysis of qiskit-ignis: cosine fit guesses and metadata

    A shallow embedding of
      - [qiskit/ignis/experiments/calibration/analysis/trigonometric.py]
        ([_freq_guess] and the class [CosinusoidalFit]), and
      - [qiskit/ignis/experiments/calibration/cal_metadata.py]
        (the dataclass [CalibrationMetadata]).

    Numbers.  The arrays of the analysis hold IEEE doubles; they are modelled
    by mathematical reals ([R]), so rounding is not part of the model.  The
    non-finite doubles that numpy produces instead of raising (a division by
    zero gives [inf] and a warning) are kept, as the type [xreal].

    Exceptions.  A Python call either returns or raises; this is the type
    [result], with the exception classes that the modelled calls raise.

    Library calls.  [np.mean], [np.fft.fft], [np.fft.fftfreq], [np.argmax],
    [np.convolve], [np.linspace] and [scipy.signal.argrelmin] are modelled
    after their library definitions, in the modules [Numpy] and [Scipy].

    Strings.  A Python [str] is the list of its code points.  The builtin
    [int] is modelled after CPython; what it reads from the interpreter (the
    Unicode database and the limit on the digits of a literal) is a
    parameter, the record [interpreter]. *)

From Stdlib Require Import Reals Lra Lia List ZArith Bool Sorted.
From Stdlib Require String Ascii.
Import ListNotations.

(** ** Python outcomes *)

Module Py.

Inductive exn : Type :=
| ValueError
| IndexError
| TypeError
| AttributeError
| OverflowError.

Inductive result (A : Type) : Type :=
| Ok (a : A)
| Raise (e : exn).

Arguments Ok {A} a.
Arguments Raise {A} e.

Definition bind {A B : Type} (m : result A) (k : A -> result B) : result B :=
  match m with
  | Ok a => k a
  | Raise e => Raise e
  end.

Definition lift_index {A : Type} (o : option A) : result A :=
  match o with
  | Some a => Ok a
  | None => Raise IndexError
  end.

End Py.

Export Py.

Declare Scope py_scope.
Delimit Scope py_scope with py.
Notation "x <- m ;; k" := (bind m (fun x => k))
  (at level 61, m at next level, right associativity) : py_scope.

(** ** The numpy calls used by the analysis *)

Module Numpy.

Local Open Scope R_scope.
Local Open Scope py_scope.

(** A double that is finite (a real), an infinity or a NaN. *)
Inductive xreal : Type :=
| Fin (r : R)
| PInf
| NInf
| NaN.

Definition Rltb (a b : R) : bool := if Rlt_dec a b then true else false.
Definition Reqb (a b : R) : bool := if Req_dec_T a b then true else false.

(** [1.0 / r] on doubles: a zero divisor gives [inf] (numpy warns, it does
    not raise). *)
Definition xinv (r : R) : xreal :=
  if Reqb r 0 then PInf else Fin (/ r).

(** An integer times a double. *)
Definition xscale (k : Z) (v : xreal) : xreal :=
  match v with
  | Fin r => Fin (IZR k * r)
  | PInf => if (k =? 0)%Z then NaN else if (0 <? k)%Z then PInf else NInf
  | NInf => if (k =? 0)%Z then NaN else if (0 <? k)%Z then NInf else PInf
  | NaN => NaN
  end.

(** [np.abs] on a double. *)
Definition xabs (v : xreal) : xreal :=
  match v with
  | Fin r => Fin (Rabs r)
  | PInf | NInf => PInf
  | NaN => NaN
  end.

(** [v == 0] on a double. *)
Definition xis_zero (v : xreal) : bool :=
  match v with
  | Fin r => Reqb r 0
  | _ => false
  end.

(** [0 < v] on a double (false on NaN). *)
Definition xpos (v : xreal) : bool :=
  match v with
  | Fin r => Rltb 0 r
  | PInf => true
  | NInf | NaN => false
  end.

Definition sum (l : list R) : R := fold_right Rplus 0 l.

(** [np.mean] of a non-empty array. *)
Definition mean (l : list R) : R := sum l / INR (length l).

(** [np.max] of a non-empty array; [ValueError] on an empty one. *)
Definition amax (l : list R) : result R :=
  match l with
  | [] => Raise ValueError
  | v :: t => Ok (fold_left Rmax t v)
  end.

(** Complex numbers of the spectrum, as pairs (real part, imaginary part). *)
Definition C : Type := (R * R)%type.

Definition Cabs (z : C) : R := sqrt (fst z * fst z + snd z * snd z).

(** One bin of the discrete Fourier transform,
    [A_k = sum_m a_m * exp (-2 pi i m k / n)]. *)
Fixpoint dft_bin (n k : nat) (m : nat) (a : list R) : C :=
  match a with
  | [] => (0, 0)
  | v :: t =>
      let w := 2 * PI * INR (m * k) / INR n in
      let rest := dft_bin n k (S m) t in
      (v * cos w + fst rest, - (v * sin w) + snd rest)
  end.

(** [np.fft.fft]: [ValueError] on an empty array. *)
Definition fft (a : list R) : result (list C) :=
  match a with
  | [] => Raise ValueError
  | _ => Ok (map (fun k => dft_bin (length a) k 0 a) (seq 0 (length a)))
  end.

(** [np.fft.fftfreq (n, d)]: the integers [0 .. N-1, -(n/2) .. -1], with
    [N = (n-1)/2 + 1], times [1.0 / (n * d)]. *)
Definition fftfreq (n : nat) (d : R) : list xreal :=
  let val := xinv (INR n * d) in
  let N := ((n - 1) / 2 + 1)%nat in
  let p1 := map Z.of_nat (seq 0 N) in
  let p2 := map (fun i => (Z.of_nat i - Z.of_nat (n / 2))%Z) (seq 0 (n / 2)) in
  map (fun k => xscale k val) (firstn n (p1 ++ p2)).

(** [np.argmax]: the first index of the largest entry; [ValueError] on an
    empty array. *)
Fixpoint argmax_from (best_i : nat) (best : R) (i : nat) (l : list R) : nat :=
  match l with
  | [] => best_i
  | v :: t =>
      if Rltb best v then argmax_from i v (S i) t
      else argmax_from best_i best (S i) t
  end.

Definition argmax (l : list R) : result nat :=
  match l with
  | [] => Raise ValueError
  | v :: t => Ok (argmax_from 0 v 1 t)
  end.

(** Entrywise sum of two lists, the shorter one continued by zeros. *)
Fixpoint add_lists (a b : list R) : list R :=
  match a, b with
  | [], _ => b
  | _, [] => a
  | x :: a', y :: b' => (x + y) :: add_lists a' b'
  end.

(** The full discrete convolution [(a * v)[k] = sum_j a[j] * v[k - j]], of
    length [len a + len v - 1]. *)
Fixpoint convolve_full (a v : list R) : list R :=
  match a with
  | [] => []
  | x :: a' =>
      match v with
      | [] => []
      | _ => add_lists (map (Rmult x) v) (0 :: convolve_full a' v)
      end
  end.

(** [np.convolve (a, v, mode='same')]: [ValueError] when an argument is
    empty; otherwise the window of the full convolution that has the length
    of the longer argument and starts [m - 1 - m/2] entries in, where [m] is
    the length of the shorter one. *)
Definition convolve_same (a v : list R) : result (list R) :=
  match a, v with
  | [], _ | _, [] => Raise ValueError
  | _, _ =>
      let m := Nat.min (length a) (length v) in
      let L := Nat.max (length a) (length v) in
      Ok (firstn L (skipn (m - 1 - m / 2) (convolve_full a v)))
  end.

(** Replaces the last entry of a list. *)
Fixpoint set_last (l : list R) (v : R) : list R :=
  match l with
  | [] => []
  | [_] => [v]
  | x :: t => x :: set_last t v
  end.

(** [np.linspace (start, stop, num)] with the end point included:
    [start + i * step] with [step = (stop - start) / (num - 1)], and the last
    entry then overwritten by [stop]. *)
Definition linspace (start stop : R) (num : nat) : list R :=
  let step := (stop - start) / INR (num - 1) in
  let y := map (fun i => INR i * step + start) (seq 0 num) in
  if (1 <? num)%nat then set_last y stop else y.

End Numpy.

(** ** The scipy call used by the analysis *)

Module Scipy.

Import Numpy.
Local Open Scope R_scope.

(** [data.take (i, mode='clip')]: an index outside the array is moved to
    its nearest end. *)
Definition take_clip (data : list R) (i : Z) : R :=
  let hi := (Z.of_nat (length data) - 1)%Z in
  nth (Z.to_nat (Z.max 0 (Z.min i hi))) data 0.

(** One turn of the loop of [_boolrelextrema] with the comparator [np.less]:
    an entry stays marked when it is below the entries [shift] to its right
    and to its left. *)
Definition relmin_step (data : list R) (shift : nat) (results : list bool)
  : list bool :=
  map (fun ir : nat * bool =>
         let (i, r) := ir in
         let main := take_clip data (Z.of_nat i) in
         let plus := take_clip data (Z.of_nat i + Z.of_nat shift) in
         let minus := take_clip data (Z.of_nat i - Z.of_nat shift) in
         r && Rltb main plus && Rltb main minus)
      (combine (seq 0 (length data)) results).

(** The loop over [shift = 1 .. order], left as soon as no entry is marked. *)
Fixpoint relmin_loop (data : list R) (shifts : list nat) (results : list bool)
  : list bool :=
  match shifts with
  | [] => results
  | shift :: rest =>
      let results' := relmin_step data shift results in
      if existsb (fun b => b) results' then relmin_loop data rest results'
      else results'
  end.

(** [np.nonzero] of a boolean array: the indices of its true entries. *)
Definition nonzero (results : list bool) : list nat :=
  map fst (filter snd (combine (seq 0 (length results)) results)).

(** [scipy.signal.argrelmin (data, order=order)] (mode ['clip']):
    [ValueError] unless [order >= 1]. *)
Definition argrelmin (data : list R) (order : nat) : result (list nat) :=
  if (order <? 1)%nat then Raise ValueError
  else
    Ok (nonzero (relmin_loop data (seq 1 order)
                             (repeat true (length data)))).

End Scipy.

(** ** trigonometric.py *)

Module Trigonometric.

Import Numpy Scipy.
Local Open Scope R_scope.
Local Open Scope py_scope.

(** Lines 25 to 29 of [_freq_guess]: the frequency of the largest bin in the
    first half of the spectrum of the centred data. *)
Definition f0_guess (xvals yvals : list R) : result xreal :=
  fft_data <- fft (map (fun v => v - mean yvals) yvals) ;;
  x1 <- lift_index (nth_error xvals 1) ;;
  x0 <- lift_index (nth_error xvals 0) ;;
  let fft_freq := fftfreq (length xvals) (x1 - x0) in
  k <- argmax (map Cabs (firstn (length fft_freq / 2) fft_data)) ;;
  f <- lift_index (nth_error fft_freq k) ;;
  Ok (xabs f).

(** Lines 33 to 38: the guess from the first minimum of the smoothed data. *)
Definition time_domain_guess (xvals yvals : list R) : result xreal :=
  yvals' <- convolve_same yvals [0.5; 0.5] ;;
  peaks <- argrelmin yvals' (length xvals / 4) ;;
  if (length peaks =? 0)%nat || (4 <? length peaks)%nat then Ok (Fin 0)
  else
    p <- lift_index (nth_error peaks 0) ;;
    xp <- lift_index (nth_error xvals p) ;;
    Ok (xinv (2 * xp)).

Definition _freq_guess (xvals yvals : list R) : result xreal :=
  f0 <- f0_guess xvals yvals ;;
  if xis_zero f0 then time_domain_guess xvals yvals
  else Ok f0.

(** Python's [max (0, v)]: [v] when [v > 0], else the first argument. *)
Definition max0 (v : xreal) : xreal := if xpos v then v else Fin 0.

(** *** class CosinusoidalFit

    The methods do not read or write [self]; it is left out. *)

(** [initial_guess] is a generator whose only [yield] is in its final loop:
    it either raises when it is first advanced, before any vector is
    produced, or produces all the vectors of the loop.  Each vector is the
    array [[a0, f0, phi, y_mean]]. *)
Definition initial_guess (xvals yvals : list R) : result (list (list xreal)) :=
  let y_mean := mean yvals in
  m <- amax (map Rabs yvals) ;;
  let a0 := m - Rabs y_mean in
  f <- _freq_guess xvals yvals ;;
  let f0 := max0 f in
  Ok (map (fun phi => [Fin a0; f0; Fin phi; Fin y_mean])
          (linspace (- PI) PI 10)).

(** [fit_function (xvals, *args)], entrywise over [xvals]; [IndexError] when
    fewer than four parameters are passed. *)
Definition fit_function (xvals : list R) (args : list R) : result (list R) :=
  a <- lift_index (nth_error args 0) ;;
  f <- lift_index (nth_error args 1) ;;
  phi <- lift_index (nth_error args 2) ;;
  b <- lift_index (nth_error args 3) ;;
  Ok (map (fun x => a * cos (2 * PI * f * x + phi) + b) xvals).

Definition fit_boundary (xvals yvals : list R) : list (xreal * xreal) :=
  [(NInf, PInf); (Fin 0, PInf); (Fin (- PI), Fin PI); (NInf, PInf)].

(** The inputs the analysis is written for: as many [y] as [x], at least
    two, and [x] increasing by a constant positive step. *)
Definition valid_input (xvals yvals : list R) : Prop :=
  length xvals = length yvals /\
  (2 <= length xvals)%nat /\
  exists step, 0 < step /\
    forall i, (S i < length xvals)%nat ->
      nth (S i) xvals 0 = nth i xvals 0 + step.

End Trigonometric.

(** ** cal_metadata.py *)

Module CalMetadata.

Import String Ascii Numpy.
Local Open Scope string_scope.
Local Open Scope Z_scope.
Local Open Scope py_scope.

(** A Python [str]: the list of its code points. *)
Definition unicode : Type := list N.

(** The [str] of an ASCII literal. *)
Definition str (s : string) : unicode :=
  map N_of_ascii (list_ascii_of_string s).

Local Unset Elimination Schemes.

(** The Python values that the fields of a record hold. *)
Inductive pyval : Type :=
| PyNone
| PyBool (b : bool)
| PyInt (z : Z)
| PyFloat (v : xreal)
| PyComplex (re im : xreal)
| PyStr (s : unicode)
| PyList (l : list pyval)
| PyDict (d : list (pyval * pyval)).

Local Set Elimination Schemes.

(** Truth value of an object, as tested by [if]. *)
Definition truthy (v : pyval) : bool :=
  match v with
  | PyNone => false
  | PyBool b => b
  | PyInt z => negb (z =? 0)
  | PyFloat v => negb (xis_zero v)
  | PyComplex re im => negb (xis_zero re && xis_zero im)
  | PyStr s => negb (List.length s =? 0)%nat
  | PyList l => negb (List.length l =? 0)%nat
  | PyDict d => negb (List.length d =? 0)%nat
  end.

(** *** The builtin [int] *)

(** What the Unicode database of the interpreter says of a code point: a
    white space ([Py_UNICODE_ISSPACE]), a decimal digit with its value
    ([Py_UNICODE_TODECIMAL]), or neither. *)
Inductive uclass : Type :=
| USpace
| UDecimal (d : N)
| UOther.

(** The parts of the interpreter that [int] reads and that the source does
    not fix: the Unicode database, which [int] consults for the code points
    from 127 of a string that is not ASCII, and the limit
    [sys.get_int_max_str_digits ()] on the digits of a decimal literal (0
    for no limit, as in every Python before 3.11). *)
Record interpreter : Type := {
  unicode_db : N -> uclass;
  int_max_str_digits : nat
}.

(** [Py_ISSPACE], the white space that [PyLong_FromString] skips: tab to
    carriage return, and the space. *)
Definition is_space (c : N) : bool :=
  ((9 <=? c) && (c <=? 13) || (c =? 32))%N.

Definition digit_of (c : N) : option Z :=
  if ((48 <=? c) && (c <=? 57))%N then Some (Z.of_N c - 48) else None.

(** The loop of [_PyUnicode_TransformDecimalAndSpaceToASCII]: code points
    under 127 are kept, a Unicode white space becomes a space, a Unicode
    decimal digit becomes its ASCII digit, and anything else becomes ['?']
    and ends the string. *)
Fixpoint transform (db : N -> uclass) (s : unicode) : unicode :=
  match s with
  | [] => []
  | c :: t =>
      if (c <? 127)%N then c :: transform db t
      else
        match db c with
        | USpace => 32%N :: transform db t
        | UDecimal d => (48 + d)%N :: transform db t
        | UOther => [63%N]
        end
  end.

(** An ASCII string is passed on as it is. *)
Definition to_ascii (db : N -> uclass) (s : unicode) : unicode :=
  if forallb (fun c => (c <? 128)%N) s then s else transform db s.

Fixpoint lstrip (s : unicode) : unicode :=
  match s with
  | c :: t => if is_space c then lstrip t else s
  | [] => s
  end.

Fixpoint all_space (s : unicode) : bool :=
  match s with
  | c :: t => is_space c && all_space t
  | [] => true
  end.

(** The digits of a decimal literal: single underscores may separate digits,
    and white space may follow the last digit.  [after_digit] tells whether
    the previous character was a digit, [digits] counts the digits read. *)
Fixpoint parse_digits (acc : Z) (digits : nat) (after_digit : bool)
         (s : unicode) : option (Z * nat) :=
  match s with
  | [] => if after_digit then Some (acc, digits) else None
  | c :: t =>
      match digit_of c with
      | Some d => parse_digits (10 * acc + d) (S digits) true t
      | None =>
          if after_digit && (c =? 95)%N then parse_digits acc digits false t
          else if after_digit && all_space s then Some (acc, digits)
          else None
      end
  end.

(** A literal of more than 640 digits (the threshold under which the
    interpreter does not check) is refused when it has more digits than a
    limit that is set. *)
Definition too_many_digits (limit digits : nat) : bool :=
  ((640 <? digits) && (0 <? limit) && (limit <? digits))%nat.

(** The digits after the sign. *)
Definition int_of_digits (py : interpreter) (t : unicode) : option Z :=
  match parse_digits 0 0 false t with
  | Some (z, digits) =>
      if too_many_digits (int_max_str_digits py) digits then None else Some z
  | None => None
  end.

(** [int (s)] for a string, in base 10: optional white space, an optional
    sign, and decimal digits. *)
Definition int_of_str (py : interpreter) (s : unicode) : option Z :=
  match lstrip (to_ascii (unicode_db py) s) with
  | 45%N :: t => option_map Z.opp (int_of_digits py t)
  | 43%N :: t => int_of_digits py t
  | t => int_of_digits py t
  end.

(** [int (x)] for a finite float: the fractional part is dropped. *)
Definition trunc (r : R) : Z :=
  if Rltb r 0 then - Int_part (- r) else Int_part r.

(** [int (v)]: [ValueError] for a string that is not a literal and for a
    NaN, [OverflowError] for an infinity, [TypeError] for an object that is
    neither a real number nor a string. *)
Definition int (py : interpreter) (v : pyval) : result Z :=
  match v with
  | PyInt z => Ok z
  | PyBool b => Ok (if b then 1 else 0)
  | PyFloat (Fin r) => Ok (trunc r)
  | PyFloat NaN => Raise ValueError
  | PyFloat _ => Raise OverflowError
  | PyStr s =>
      match int_of_str py s with
      | Some z => Ok z
      | None => Raise ValueError
      end
  | PyNone | PyComplex _ _ | PyList _ | PyDict _ => Raise TypeError
  end.

(** *** Dictionaries with integer keys, in insertion order *)

(** [d[k] = v]: an existing key keeps its place. *)
Fixpoint dict_set (d : list (Z * Z)) (k v : Z) : list (Z * Z) :=
  match d with
  | [] => [(k, v)]
  | (k', v') :: t =>
      if k' =? k then (k', v) :: t else (k', v') :: dict_set t k v
  end.

Definition dict_get (d : list (Z * Z)) (k : Z) : option Z :=
  option_map snd (find (fun kv => fst kv =? k) d).

(** *** class CalibrationMetadata *)

Record CalibrationMetadata : Type := {
  name : pyval;
  pulse_schedule_name : pyval;
  x_values : pyval;
  series : pyval;
  exp_id : pyval;
  qubits : pyval;
  register_map : pyval
}.

(** The loop of [__init__] over [register_map.items ()].  In the assignment
    [self.register_map[int(key)] = int(value)] the right-hand side is
    evaluated first. *)
Fixpoint coerce_items (py : interpreter) (items : list (pyval * pyval))
         (acc : list (Z * Z)) : result (list (Z * Z)) :=
  match items with
  | [] => Ok acc
  | (key, value) :: rest =>
      v <- int py value ;;
      k <- int py key ;;
      coerce_items py rest (dict_set acc k v)
  end.

Definition int_dict (d : list (Z * Z)) : pyval :=
  PyDict (map (fun kv => (PyInt (fst kv), PyInt (snd kv))) d).

(** [__init__], run by the interpreter [py].  When [register_map] is false
    the instance attribute is not set, and reading it gives the class
    attribute, [None]. *)
Definition __init__ (py : interpreter)
           (name pulse_schedule_name x_values series exp_id qubits
            register_map : pyval) : result CalibrationMetadata :=
  rm <- (if truthy register_map then
           match register_map with
           | PyDict items => d <- coerce_items py items [] ;; Ok (int_dict d)
           | _ => Raise AttributeError
           end
         else Ok PyNone) ;;
  Ok {| name := name;
        pulse_schedule_name := pulse_schedule_name;
        x_values := x_values;
        series := series;
        exp_id := exp_id;
        qubits := qubits;
        register_map := rm |}.

(** [to_dict]: the exported dictionary, in the order of the literal, and the
    record after the call. *)
Definition to_dict (self : CalibrationMetadata)
  : list (string * pyval) * CalibrationMetadata :=
  ([("name", name self);
    ("series", series self);
    ("x_values", x_values self);
    ("pulse_schedule_name", pulse_schedule_name self);
    ("exp_id", exp_id self);
    ("qubits", qubits self);
    ("register_map", register_map self)],
   self).

End CalMetadata.

(** ** Notions used to state the properties *)

Module Notions.

Import Numpy Scipy.
Local Open Scope R_scope.

(** The entries that follow the first one in the full convolution of
    [v :: t] with a kernel [[h1; h2]]. *)
Fixpoint conv_tail (h1 h2 : R) (v : R) (t : list R) : list R :=
  match t with
  | [] => [v * h2]
  | u :: t' => (v * h2 + (u * h1 + 0)) :: conv_tail h1 h2 u t'
  end.

(** The test of one entry against its two neighbours at distance [shift]. *)
Definition below_neighbours (data : list R) (i shift : nat) : bool :=
  Rltb (take_clip data (Z.of_nat i)) (take_clip data (Z.of_nat i + Z.of_nat shift))
  && Rltb (take_clip data (Z.of_nat i)) (take_clip data (Z.of_nat i - Z.of_nat shift)).

(** Entry [i] is a relative minimum of order [order]: it is below each of
    the [order] entries on either side, an entry past an end counting as the
    entry at that end. *)
Definition is_relmin (data : list R) (order i : nat) : Prop :=
  (i < length data)%nat /\
  forall k, (1 <= k <= order)%nat ->
    nth i data 0 < take_clip data (Z.of_nat i + Z.of_nat k) /\
    nth i data 0 < take_clip data (Z.of_nat i - Z.of_nat k).

(** The fallback of [_freq_guess] as the specification words it.  A 2-tap
    moving average with weights 0.5 and 0.5 and as many entries as [y]: *)
Definition moving_average (yvals : list R) : list R :=
  map (fun i =>
         0.5 * nth i yvals 0
         + 0.5 * (if (i =? 0)%nat then 0 else nth (i - 1) yvals 0))
      (seq 0 (length yvals)).

(** the indices that are the minimum of their window of [w] samples on each
    side: *)
Definition local_minima (s : list R) (w : nat) : list nat :=
  filter (fun i => forallb (below_neighbours s i) (seq 1 w))
         (seq 0 (length s)).

(** and the estimate: 0 for no minimum or more than four, else
    [1 / (2 * x[first minimum])]. *)
Definition fallback_steps (xvals yvals : list R) : xreal :=
  let minima := local_minima (moving_average yvals) (length xvals / 4) in
  if (length minima =? 0)%nat || (4 <? length minima)%nat then Fin 0
  else xinv (2 * nth (hd 0%nat minima) xvals 0).



End Notions.

Module MetadataNotions.

Import CalMetadata.
Local Open Scope Z_scope.

(** [int] accepts both sides of an entry, and gives the pair [zz]. *)
Definition coerces (py : interpreter) (kv : pyval * pyval) (zz : Z * Z) : Prop :=
  int py (fst kv) = Ok (fst zz) /\ int py (snd kv) = Ok (snd zz).

(** [int] rejects the key or the value of an entry. *)
Definition fails (py : interpreter) (kv : pyval * pyval) : Prop :=
  (exists e, int py (fst kv) = Raise e) \/ (exists e, int py (snd kv) = Raise e).

(** An interpreter to evaluate examples with: its database knows the
    no-break space and the Arabic-Indic digits, and its limit on digits is
    the default of Python 3.11. *)
Definition sample_interpreter : interpreter :=
  {| unicode_db := fun c =>
       if (c =? 160)%N then USpace
       else if ((1632 <=? c) && (c <=? 1641))%N then UDecimal (c - 1632)
       else UOther;
     int_max_str_digits := 4300 |}.

(** The assignments [acc[k] = v] for the entries [(k, v)] of [l], in order. *)
Definition set_all (l : list (Z * Z)) (acc : list (Z * Z)) : list (Z * Z) :=
  fold_left (fun a kv => dict_set a (fst kv) (snd kv)) l acc.

(** The value that the last entry with key [k] gives to [k]. *)
Definition last_binding (l : list (Z * Z)) (k : Z) : option Z :=
  fold_left (fun o kv => if fst kv =? k then Some (snd kv) else o) l None.

End MetadataNotions.

Module Bounds.

Import Numpy.
Local Open Scope R_scope.

(** [a <= b] on doubles (false when a NaN is compared). *)
Definition xle (a b : xreal) : Prop :=
  match a, b with
  | NaN, _ | _, NaN => False
  | NInf, _ => True
  | _, PInf => True
  | Fin r, Fin s => r <= s
  | _, _ => False
  end.

(** A parameter vector lies within a list of bounds, entry by entry. *)
Definition within_bounds (vec : list xreal) (bounds : list (xreal * xreal)) : Prop :=
  Forall2 (fun v b => xle (fst b) v /\ xle v (snd b)) vec bounds.

End Bounds.

(** * Properties *)

(** ** Deciding comparisons of reals *)

Section Comparisons.

Import Numpy.
Local Open Scope R_scope.

Lemma Rltb_true (a b : R) : a < b -> Rltb a b = true.
Proof. intros H; unfold Rltb; destruct (Rlt_dec a b); [reflexivity | contradiction]. Qed.

Lemma Rltb_false (a b : R) : ~ a < b -> Rltb a b = false.
Proof. intros H; unfold Rltb; destruct (Rlt_dec a b); [contradiction | reflexivity]. Qed.

Lemma Rltb_spec (a b : R) : Rltb a b = true <-> a < b.
Proof.
  unfold Rltb; destruct (Rlt_dec a b); split; intros H;
    try reflexivity; try assumption; try discriminate; contradiction.
Qed.

Lemma Reqb_true (a b : R) : a = b -> Reqb a b = true.
Proof. intros H; unfold Reqb; destruct (Req_dec_T a b); [reflexivity | contradiction]. Qed.

Lemma Reqb_false (a b : R) : a <> b -> Reqb a b = false.
Proof. intros H; unfold Reqb; destruct (Req_dec_T a b); [contradiction | reflexivity]. Qed.

Lemma Reqb_spec (a b : R) : Reqb a b = true <-> a = b.
Proof.
  unfold Reqb; destruct (Req_dec_T a b); split; intros H;
    try reflexivity; try assumption; try discriminate; contradiction.
Qed.

End Comparisons.

(** Settles every comparison of the goal that linear arithmetic decides. *)
Ltac decide_reals :=
  repeat match goal with
    | |- context [Numpy.Rltb ?a ?b] =>
        first [ rewrite (Rltb_true a b) by lra
              | rewrite (Rltb_false a b) by lra ]
    | |- context [Numpy.Reqb ?a ?b] =>
        first [ rewrite (Reqb_true a b) by lra
              | rewrite (Reqb_false a b) by lra ]
    end.


(** ** trigonometric.py: the frequency guess *)

Import Numpy Scipy Trigonometric Notions.
Local Open Scope R_scope.

Section Spectrum.

Lemma fftfreq_length (n : nat) (d : R) : length (fftfreq n d) = n.
Proof.
  unfold fftfreq. rewrite length_map, length_firstn, length_app, !length_map, !length_seq.
  apply Nat.min_l.
  destruct n as [|n]; [lia|].
  pose proof (Nat.div_mod_eq (S n - 1) 2) as H1.
  pose proof (Nat.div_mod_eq (S n) 2) as H2.
  pose proof (Nat.mod_upper_bound (S n - 1) 2) as H3.
  pose proof (Nat.mod_upper_bound (S n) 2) as H4.
  lia.
Qed.

Lemma fftfreq_nth (n : nat) (d : R) (k : nat) :
  (k < n / 2)%nat ->
  nth_error (fftfreq n d) k = Some (xscale (Z.of_nat k) (xinv (INR n * d))).
Proof.
  intros Hk. unfold fftfreq.
  assert (Hn : (n / 2 <= (n - 1) / 2 + 1)%nat).
  { pose proof (Nat.div_mod_eq (n - 1) 2) as H1.
    pose proof (Nat.div_mod_eq n 2) as H2.
    pose proof (Nat.mod_upper_bound (n - 1) 2) as H3.
    pose proof (Nat.mod_upper_bound n 2) as H4. lia. }
  assert (Hkn : (k < n)%nat).
  { pose proof (Nat.div_mod_eq n 2). lia. }
  rewrite nth_error_map, nth_error_firstn.
  replace (k <? n)%nat with true by (symmetry; apply Nat.ltb_lt; exact Hkn).
  rewrite nth_error_app1 by (rewrite length_map, length_seq; lia).
  rewrite nth_error_map, nth_error_seq.
  replace (k <? (n - 1) / 2 + 1)%nat with true by (symmetry; apply Nat.ltb_lt; lia).
  reflexivity.
Qed.

Lemma argmax_from_bound (l : list R) (bi i : nat) (b : R) :
  (bi < i)%nat -> (argmax_from bi b i l < i + length l)%nat.
Proof.
  revert bi i b. induction l as [|v t IH]; intros bi i b Hbi; cbn.
  - lia.
  - destruct (Rltb b v).
    + specialize (IH i (S i) v). lia.
    + specialize (IH bi (S i) b). lia.
Qed.

Lemma argmax_bound (l : list R) (k : nat) :
  argmax l = Ok k -> (k < length l)%nat.
Proof.
  destruct l as [|v t]; cbn; [discriminate|].
  intros H; injection H as <-.
  pose proof (argmax_from_bound t 0 1 v). lia.
Qed.

Lemma argmax_nonempty (l : list R) :
  l <> [] -> exists k, argmax l = Ok k.
Proof. destruct l; [congruence|]; intros _; eexists; reflexivity. Qed.

Lemma fft_ok (a : list R) :
  a <> [] ->
  fft a = Ok (map (fun k => dft_bin (length a) k 0 a) (seq 0 (length a))).
Proof. destruct a; [congruence | reflexivity]. Qed.

Lemma f0_guess_shape (xvals yvals : list R) :
  length xvals = length yvals -> (2 <= length xvals)%nat ->
  exists k, (k < length xvals / 2)%nat /\
    f0_guess xvals yvals =
      Ok (xabs (xscale (Z.of_nat k)
                  (xinv (INR (length xvals) * (nth 1 xvals 0 - nth 0 xvals 0))))).
Proof.
  intros Hlen Hn. unfold f0_guess.
  rewrite fft_ok by (destruct yvals; cbn in *; [lia | discriminate]).
  destruct xvals as [|x0 [|x1 xs]]; cbn [length] in Hn; try lia.
  cbn [bind nth_error lift_index nth].
  rewrite fftfreq_length.
  set (n := length (x0 :: x1 :: xs)) in *.
  change (2 <= n)%nat in Hn. clearbody n.
  assert (Hle : (n / 2 <= n)%nat) by (pose proof (Nat.div_mod_eq n 2); lia).
  set (spec := map Cabs _).
  assert (Hspec : length spec = (n / 2)%nat).
  { unfold spec. rewrite length_map, length_firstn, length_map, length_seq, length_map.
    rewrite <- Hlen. apply Nat.min_l. exact Hle. }
  assert (Hhalf : (1 <= n / 2)%nat).
  { change 1%nat with (2 / 2)%nat. apply Nat.Div0.div_le_mono. exact Hn. }
  clearbody spec.
  destruct (argmax spec) as [k|e] eqn:Hk.
  - apply argmax_bound in Hk. rewrite Hspec in Hk.
    exists k. split; [exact Hk|]. cbn [bind].
    rewrite fftfreq_nth by exact Hk. reflexivity.
  - destruct spec; [cbn [length] in Hspec; lia | discriminate].
Qed.

End Spectrum.


Section Smoothing.

Variables h1 h2 : R.

Lemma convolve_full_cons (v : R) (t : list R) :
  convolve_full (v :: t) [h1; h2] = (v * h1 + 0) :: conv_tail h1 h2 v t.
Proof.
  revert v. induction t as [|u t IH]; intros v.
  - reflexivity.
  - change (convolve_full (v :: u :: t) [h1; h2])
      with (add_lists [v * h1; v * h2] (0 :: convolve_full (u :: t) [h1; h2])).
    rewrite IH. reflexivity.
Qed.

Lemma conv_tail_length (v : R) (t : list R) :
  length (conv_tail h1 h2 v t) = S (length t).
Proof. revert v; induction t as [|u t IH]; intros v; cbn; [reflexivity | now rewrite IH]. Qed.

Lemma conv_tail_nth (t : list R) (v : R) (i : nat) :
  (i < length t)%nat ->
  nth i (conv_tail h1 h2 v t) 0 = h1 * nth i t 0 + h2 * nth i (v :: t) 0.
Proof.
  revert v i. induction t as [|u t IH]; intros v i Hi; cbn [length] in Hi; [lia|].
  destruct i as [|i].
  - cbn. lra.
  - cbn [conv_tail nth]. rewrite IH by lia. reflexivity.
Qed.

Lemma convolve_same_two (yvals : list R) :
  (2 <= length yvals)%nat ->
  exists s, convolve_same yvals [h1; h2] = Ok s /\
    length s = length yvals /\
    forall i, (i < length yvals)%nat ->
      nth i s 0 =
        h1 * nth i yvals 0 + h2 * (if (i =? 0)%nat then 0 else nth (i - 1) yvals 0).
Proof.
  intros Hn. destruct yvals as [|v [|u t]]; cbn [length] in Hn; try lia.
  unfold convolve_same.
  replace (Nat.min (length (v :: u :: t)) (length [h1; h2])) with 2%nat
    by (cbn [length]; lia).
  replace (Nat.max (length (v :: u :: t)) (length [h1; h2]))
    with (S (S (length t))) by (cbn [length]; lia).
  change (2 - 1 - 2 / 2)%nat with 0%nat. cbn [skipn].
  rewrite convolve_full_cons, firstn_cons.
  eexists. split; [reflexivity|]. split.
  - cbn [length]. rewrite length_firstn, conv_tail_length. cbn [length]. lia.
  - intros i Hi. destruct i as [|i].
    + cbn. lra.
    + cbn [nth Nat.eqb]. rewrite nth_firstn.
      replace (i <? S (length t))%nat with true
        by (symmetry; apply Nat.ltb_lt; cbn [length] in Hi; lia).
      rewrite conv_tail_nth by (cbn [length] in *; lia).
      replace (S i - 1)%nat with i by lia. reflexivity.
Qed.

End Smoothing.


Section RelMin.


Lemma take_clip_inside (data : list R) (i : nat) :
  (i < length data)%nat -> take_clip data (Z.of_nat i) = nth i data 0.
Proof.
  intros Hi. unfold take_clip. f_equal. lia.
Qed.

Lemma relmin_step_length (data : list R) (shift : nat) (results : list bool) :
  length results = length data ->
  length (relmin_step data shift results) = length data.
Proof.
  intros H. unfold relmin_step.
  rewrite length_map, length_combine, length_seq, H. apply Nat.min_id.
Qed.

Lemma relmin_step_nth (data : list R) (shift : nat) (results : list bool) (i : nat) :
  length results = length data -> (i < length data)%nat ->
  nth i (relmin_step data shift results) false =
    nth i results false && below_neighbours data i shift.
Proof.
  intros H Hi. unfold relmin_step.
  set (f := fun ir : nat * bool => _).
  rewrite (nth_indep _ false (f (0%nat, false)))
    by (rewrite length_map, length_combine, length_seq, H; lia).
  rewrite map_nth, combine_nth by (rewrite length_seq; congruence).
  rewrite seq_nth by exact Hi. cbn. unfold below_neighbours.
  now rewrite andb_assoc.
Qed.

Lemma existsb_id_false (l : list bool) (i : nat) :
  existsb (fun b => b) l = false -> nth i l false = false.
Proof.
  revert i. induction l as [|b l IH]; intros i H; destruct i; cbn in *;
    try reflexivity; apply orb_false_elim in H as [Hb Hl]; auto.
Qed.

Lemma relmin_loop_length (data : list R) (shifts : list nat) (results : list bool) :
  length results = length data ->
  length (relmin_loop data shifts results) = length data.
Proof.
  revert results. induction shifts as [|sh rest IH]; intros results H; cbn.
  - exact H.
  - destruct (existsb _ _).
    + apply IH. now apply relmin_step_length.
    + now apply relmin_step_length.
Qed.

Lemma relmin_loop_nth (data : list R) (shifts : list nat) (results : list bool)
      (i : nat) :
  length results = length data -> (i < length data)%nat ->
  nth i (relmin_loop data shifts results) false =
    nth i results false && forallb (below_neighbours data i) shifts.
Proof.
  revert results. induction shifts as [|sh rest IH]; intros results H Hi; cbn.
  - now rewrite andb_true_r.
  - destruct (existsb _ _) eqn:Hany.
    + rewrite IH by (try apply relmin_step_length; assumption).
      rewrite relmin_step_nth by assumption. now rewrite andb_assoc.
    + pose proof (existsb_id_false _ i Hany) as Hf.
      rewrite Hf. rewrite relmin_step_nth in Hf by assumption.
      rewrite andb_assoc, Hf. reflexivity.
Qed.

Lemma nonzero_from (results : list bool) (start : nat) :
  let l := map fst (filter snd (combine (seq start (length results)) results)) in
  (forall i, In i l <->
     (start <= i < start + length results)%nat /\ nth (i - start) results false = true)
  /\ StronglySorted lt l.
Proof.
  revert start. induction results as [|b r IH]; intros start; cbn [length seq combine].
  - cbn. split; [|constructor]. intros i; split; [tauto | lia].
  - destruct (IH (S start)) as [IHin IHs]. cbn zeta in *.
    cbn [filter snd]. destruct b; cbn [map fst].
    + split.
      * intros i. cbn [In]. rewrite IHin. split.
        -- intros [<- | [Hr Hn]].
           ++ split; [lia|]. now rewrite Nat.sub_diag.
           ++ split; [lia|]. replace (i - start)%nat with (S (i - S start)) by lia.
              exact Hn.
        -- intros [Hr Hn]. destruct (Nat.eq_dec start i) as [->|Hne]; [now left|].
           right. split; [lia|].
           replace (i - start)%nat with (S (i - S start)) in Hn by lia. exact Hn.
      * constructor; [exact IHs|]. apply Forall_forall. intros j Hj.
        apply IHin in Hj. lia.
    + split; [|exact IHs]. intros i. rewrite IHin. split.
      * intros [Hr Hn]. split; [lia|].
        replace (i - start)%nat with (S (i - S start)) by lia. exact Hn.
      * intros [Hr Hn]. destruct (Nat.eq_dec start i) as [->|Hne].
        -- rewrite Nat.sub_diag in Hn. discriminate.
        -- split; [lia|].
           replace (i - start)%nat with (S (i - S start)) in Hn by lia. exact Hn.
Qed.

Lemma nonzero_spec (results : list bool) :
  (forall i, In i (nonzero results) <->
     (i < length results)%nat /\ nth i results false = true)
  /\ StronglySorted lt (nonzero results).
Proof.
  destruct (nonzero_from results 0) as [Hin Hs]. split; [|exact Hs].
  intros i. unfold nonzero. rewrite Hin, Nat.sub_0_r. split; intros [? ?]; split; auto; lia.
Qed.

Lemma forallb_below_spec (data : list R) (order i : nat) :
  (i < length data)%nat ->
  forallb (below_neighbours data i) (seq 1 order) = true <->
  (forall k, (1 <= k <= order)%nat ->
     nth i data 0 < take_clip data (Z.of_nat i + Z.of_nat k) /\
     nth i data 0 < take_clip data (Z.of_nat i - Z.of_nat k)).
Proof.
  intros Hi. rewrite forallb_forall. split.
  - intros H k Hk. specialize (H k). rewrite in_seq in H.
    assert (Hb : below_neighbours data i k = true) by (apply H; lia).
    unfold below_neighbours in Hb. apply andb_prop in Hb as [H1 H2].
    apply Rltb_spec in H1, H2. rewrite take_clip_inside in H1, H2 by exact Hi. auto.
  - intros H k Hk. apply in_seq in Hk. destruct (H k) as [H1 H2]; [lia|].
    unfold below_neighbours. rewrite take_clip_inside by exact Hi.
    apply andb_true_intro; split; apply Rltb_spec; assumption.
Qed.

Lemma argrelmin_spec (data : list R) (order : nat) :
  (1 <= order)%nat ->
  exists peaks, argrelmin data order = Ok peaks /\
    StronglySorted lt peaks /\
    forall i, In i peaks <-> is_relmin data order i.
Proof.
  intros Ho. unfold argrelmin.
  replace (order <? 1)%nat with false by (symmetry; apply Nat.ltb_ge; exact Ho).
  eexists. split; [reflexivity|].
  destruct (nonzero_spec (relmin_loop data (seq 1 order) (repeat true (length data))))
    as [Hin Hs].
  split; [exact Hs|]. intros i. rewrite Hin.
  rewrite relmin_loop_length by apply repeat_length.
  unfold is_relmin. split.
  - intros [Hi Hn]. split; [exact Hi|].
    rewrite relmin_loop_nth in Hn by (try apply repeat_length; exact Hi).
    apply andb_prop in Hn as [_ Hn]. now apply forallb_below_spec.
  - intros [Hi Hn]. split; [exact Hi|].
    rewrite relmin_loop_nth by (try apply repeat_length; exact Hi).
    apply andb_true_intro. split.
    + rewrite nth_repeat_lt by exact Hi. reflexivity.
    + now apply forallb_below_spec.
Qed.

Lemma argrelmin_raises (data : list R) :
  argrelmin data 0 = Raise ValueError.
Proof. reflexivity. Qed.

End RelMin.


Section FreqGuess.

Lemma valid_input_nth (xvals yvals : list R) :
  valid_input xvals yvals ->
  exists step, 0 < step /\
    forall i, (i < length xvals)%nat ->
      nth i xvals 0 = nth 0 xvals 0 + INR i * step.
Proof.
  intros (_ & _ & step & Hstep & Hnext). exists step. split; [exact Hstep|].
  induction i as [|i IH]; intros Hi.
  - cbn. lra.
  - rewrite Hnext by exact Hi. rewrite IH by lia. rewrite S_INR. lra.
Qed.

Lemma valid_input_increasing (xvals yvals : list R) (i : nat) :
  valid_input xvals yvals -> (1 <= i < length xvals)%nat ->
  nth 0 xvals 0 < nth i xvals 0.
Proof.
  intros Hv Hi. destruct (valid_input_nth _ _ Hv) as (step & Hstep & Hnth).
  rewrite (Hnth i) by lia.
  assert (1 <= INR i) by (change 1 with (INR 1); apply le_INR; lia).
  nra.
Qed.

Lemma valid_input_spacing (xvals yvals : list R) :
  valid_input xvals yvals ->
  0 < INR (length xvals) * (nth 1 xvals 0 - nth 0 xvals 0).
Proof.
  intros Hv. pose proof (valid_input_increasing _ _ 1 Hv) as H.
  destruct Hv as (_ & Hn & _).
  assert (0 < INR (length xvals)) by (apply lt_0_INR; lia).
  specialize (H ltac:(lia)). nra.
Qed.

(** On a valid input the spectral guess is a finite, non-negative number. *)
Lemma f0_guess_valid (xvals yvals : list R) :
  valid_input xvals yvals ->
  exists k r, (k < length xvals / 2)%nat /\ 0 <= r /\
    (k = 0%nat <-> r = 0) /\
    f0_guess xvals yvals = Ok (Fin r).
Proof.
  intros Hv. pose proof (valid_input_spacing _ _ Hv) as Hd.
  destruct Hv as (Hlen & Hn & _).
  destruct (f0_guess_shape _ _ Hlen Hn) as (k & Hk & Hf).
  unfold xinv in Hf. rewrite Reqb_false in Hf by lra. cbn [xscale xabs] in Hf.
  exists k, (Rabs (IZR (Z.of_nat k) * / (INR (length xvals) * (nth 1 xvals 0 - nth 0 xvals 0)))).
  split; [exact Hk|]. split; [apply Rabs_pos|]. split; [|exact Hf].
  assert (Hinv : 0 < / (INR (length xvals) * (nth 1 xvals 0 - nth 0 xvals 0)))
    by (apply Rinv_0_lt_compat; exact Hd).
  rewrite <- INR_IZR_INZ. split.
  - intros ->. cbn. rewrite Rmult_0_l. apply Rabs_R0.
  - intros H0. destruct k as [|k]; [reflexivity|]. exfalso.
    assert (0 < INR (S k)) by (apply lt_0_INR; lia).
    rewrite Rabs_pos_eq in H0 by nra. nra.
Qed.

Lemma time_domain_guess_spec (xvals yvals : list R) :
  length xvals = length yvals -> (4 <= length xvals)%nat ->
  exists s peaks,
    convolve_same yvals [0.5; 0.5] = Ok s /\
    argrelmin s (length xvals / 4) = Ok peaks /\
    length s = length yvals /\
    (forall i, (i < length yvals)%nat ->
       nth i s 0 = 0.5 * nth i yvals 0
                   + 0.5 * (if (i =? 0)%nat then 0 else nth (i - 1) yvals 0)) /\
    StronglySorted lt peaks /\
    (forall i, In i peaks <-> is_relmin s (length xvals / 4) i) /\
    time_domain_guess xvals yvals =
      if (length peaks =? 0)%nat || (4 <? length peaks)%nat then Ok (Fin 0)
      else Ok (xinv (2 * nth (hd 0%nat peaks) xvals 0)).
Proof.
  intros Hlen Hn.
  destruct (convolve_same_two 0.5 0.5 yvals) as (s & Hs & Hsl & Hsn); [lia|].
  assert (Ho : (1 <= length xvals / 4)%nat).
  { change 1%nat with (4 / 4)%nat. apply Nat.Div0.div_le_mono. exact Hn. }
  destruct (argrelmin_spec s (length xvals / 4) Ho) as (peaks & Hp & Hsort & Hin).
  exists s, peaks. repeat (split; [assumption|]).
  unfold time_domain_guess. rewrite Hs. cbn [bind]. rewrite Hp. cbn [bind].
  destruct ((length peaks =? 0)%nat || (4 <? length peaks)%nat) eqn:Hc; [reflexivity|].
  destruct peaks as [|p rest]; [discriminate|].
  cbn [nth_error lift_index bind hd].
  assert (Hpl : (p < length xvals)%nat).
  { destruct (Hin p) as [Hrel _]. destruct Hrel as [Hlt _]; [now left|]. lia. }
  rewrite (nth_error_nth' xvals 0 Hpl). reflexivity.
Qed.

(** With two or three samples, a call raises: the spectral guess is zero and
    the order passed to [argrelmin] is zero. *)
Lemma freq_guess_short (xvals yvals : list R) :
  valid_input xvals yvals -> (length xvals < 4)%nat ->
  f0_guess xvals yvals = Ok (Fin 0) /\
  _freq_guess xvals yvals = Raise ValueError.
Proof.
  intros Hv Hn.
  destruct (f0_guess_valid _ _ Hv) as (k & r & Hk & _ & Hr & Hf).
  destruct Hv as (Hlen & Hn2 & _).
  assert (Hhalf : (length xvals / 2 = 1)%nat).
  { destruct xvals as [|? [|? [|? [|? ?]]]]; cbn [length] in *; try lia; reflexivity. }
  assert (Hquarter : (length xvals / 4 = 0)%nat).
  { destruct xvals as [|? [|? [|? [|? ?]]]]; cbn [length] in *; try lia; reflexivity. }
  assert (r = 0) as -> by (apply Hr; lia).
  split; [exact Hf|].
  unfold _freq_guess. rewrite Hf. cbn [bind xis_zero]. rewrite Reqb_true by reflexivity.
  unfold time_domain_guess.
  destruct (convolve_same_two 0.5 0.5 yvals) as (s & Hs & _); [lia|].
  rewrite Hs, Hquarter. reflexivity.
Qed.

End FreqGuess.

Section Refinement.

Lemma nth_map_seq {A : Type} (f : nat -> A) (n i : nat) (d : A) :
  (i < n)%nat -> nth i (map f (seq 0 n)) d = f i.
Proof.
  intros Hi. rewrite (nth_indep _ d (f 0%nat)) by (rewrite length_map, length_seq; exact Hi).
  rewrite map_nth, seq_nth by exact Hi. reflexivity.
Qed.

Lemma nonzero_filter_from (results : list bool) (start : nat) :
  map fst (filter snd (combine (seq start (length results)) results)) =
  filter (fun i => nth (i - start) results false) (seq start (length results)).
Proof.
  revert start. induction results as [|b r IH]; intros start; [reflexivity|].
  cbn [length seq combine filter snd]. rewrite Nat.sub_diag.
  change (nth 0 (b :: r) false) with b.
  assert (Hext : filter (fun i => nth (i - start) (b :: r) false) (seq (S start) (length r))
                 = filter (fun i => nth (i - S start) r false) (seq (S start) (length r))).
  { apply filter_ext_in. intros i Hi. apply in_seq in Hi.
    replace (i - start)%nat with (S (i - S start)) by lia. reflexivity. }
  rewrite Hext, <- IH. destruct b; reflexivity.
Qed.

Lemma argrelmin_local_minima (data : list R) (order : nat) :
  (1 <= order)%nat -> argrelmin data order = Ok (local_minima data order).
Proof.
  intros Ho. unfold argrelmin, local_minima, nonzero.
  replace (order <? 1)%nat with false by (symmetry; apply Nat.ltb_ge; exact Ho).
  f_equal. rewrite nonzero_filter_from.
  rewrite relmin_loop_length by apply repeat_length.
  apply filter_ext_in. intros i Hi. apply in_seq in Hi.
  rewrite Nat.sub_0_r, relmin_loop_nth by (try apply repeat_length; lia).
  rewrite nth_repeat_lt by lia. reflexivity.
Qed.

Lemma convolve_same_moving_average (yvals : list R) :
  (2 <= length yvals)%nat ->
  convolve_same yvals [0.5; 0.5] = Ok (moving_average yvals).
Proof.
  intros Hn. destruct (convolve_same_two 0.5 0.5 yvals Hn) as (s & Hs & Hl & Hnth).
  rewrite Hs. f_equal. apply (nth_ext _ _ 0 0).
  - rewrite Hl. unfold moving_average. now rewrite length_map, length_seq.
  - intros i Hi. rewrite Hl in Hi. rewrite Hnth by exact Hi.
    unfold moving_average. now rewrite nth_map_seq by exact Hi.
Qed.

Lemma local_minima_bound (s : list R) (w i : nat) :
  In i (local_minima s w) -> (i < length s)%nat.
Proof.
  unfold local_minima. intros H. apply filter_In in H as [H _].
  apply in_seq in H. lia.
Qed.

Lemma moving_average_length (yvals : list R) :
  length (moving_average yvals) = length yvals.
Proof. unfold moving_average. now rewrite length_map, length_seq. Qed.

(** With four samples or more, the fallback of the code is the fallback of
    the specification. *)
Lemma time_domain_guess_steps (xvals yvals : list R) :
  length xvals = length yvals -> (4 <= length xvals)%nat ->
  time_domain_guess xvals yvals = Ok (fallback_steps xvals yvals).
Proof.
  intros Hlen Hn. unfold time_domain_guess, fallback_steps.
  rewrite convolve_same_moving_average by lia. cbn [bind].
  rewrite argrelmin_local_minima
    by (change 1%nat with (4 / 4)%nat; apply Nat.Div0.div_le_mono; exact Hn).
  cbn [bind].
  destruct (_ || _) eqn:Hc; [reflexivity|].
  destruct (local_minima _ _) as [|p rest] eqn:Hm; [discriminate|].
  cbn [nth_error lift_index bind hd].
  assert (Hp : (p < length xvals)%nat).
  { rewrite Hlen, <- moving_average_length.
    apply (local_minima_bound _ (length xvals / 4)). rewrite Hm. now left. }
  rewrite (nth_error_nth' xvals 0 Hp). reflexivity.
Qed.

(** With four samples or more and a spectral guess of exactly zero,
    [_freq_guess] returns what the steps of the specification give. *)
Theorem fallback_follows_steps (xvals yvals : list R) :
  valid_input xvals yvals -> (4 <= length xvals)%nat ->
  f0_guess xvals yvals = Ok (Fin 0) ->
  _freq_guess xvals yvals = Ok (fallback_steps xvals yvals).
Proof.
  intros (Hlen & _) Hn Hf. unfold _freq_guess. rewrite Hf. cbn [bind xis_zero].
  rewrite Reqb_true by reflexivity. now apply time_domain_guess_steps.
Qed.

End Refinement.


(** ** Evaluation on explicit inputs *)

Lemma take_clip_left (data : list R) (i : Z) :
  (i <= 0)%Z -> take_clip data i = nth 0 data 0.
Proof. intros Hi. unfold take_clip. f_equal. lia. Qed.

Lemma take_clip_at (data : list R) (z : Z) (i : nat) :
  Z.to_nat (Z.max 0 (Z.min z (Z.of_nat (length data) - 1))) = i ->
  take_clip data z = nth i data 0.
Proof. intros <-. reflexivity. Qed.

(** Evaluates [take_clip] on an explicit list of at most six entries. *)
Ltac eval_take_clip :=
  repeat match goal with
    | |- context [take_clip ?d ?z] =>
        first [ rewrite (take_clip_at d z 0%nat) by (cbn [length]; lia)
              | rewrite (take_clip_at d z 1%nat) by (cbn [length]; lia)
              | rewrite (take_clip_at d z 2%nat) by (cbn [length]; lia)
              | rewrite (take_clip_at d z 3%nat) by (cbn [length]; lia)
              | rewrite (take_clip_at d z 4%nat) by (cbn [length]; lia)
              | rewrite (take_clip_at d z 5%nat) by (cbn [length]; lia) ]
    end;
  cbn [nth].

(** Evaluates [local_minima] on an explicit list, the comparisons being
    settled by linear arithmetic. *)
Ltac eval_local_minima :=
  unfold local_minima; cbn [length seq filter forallb];
  unfold below_neighbours; eval_take_clip; decide_reals;
  cbn [andb filter].

(** Proves [valid_input] for explicit lists with the given step. *)
Ltac valid_by_cases step :=
  split; [reflexivity | split; [cbn [length]; lia |
    exists step; split; [lra |
      intros i Hi; cbn [length] in Hi;
      repeat (destruct i as [|i]; [cbn [nth]; lra |]); lia]]].

Section Claims.

(** Claim C1, at a failing input.  On the valid input [x = [0, 1]],
    [y = [0, 1]] the call [_freq_guess (x, y)] does not return a number: it
    raises [ValueError], because the order [int (len (x) / 4)] passed to
    [argrelmin] is 0. *)
Theorem freq_guess_raises_on_two_samples :
  valid_input [0; 1] [0; 1] /\
  _freq_guess [0; 1] [0; 1] = Raise ValueError.
Proof.
  assert (Hv : valid_input [0; 1] [0; 1]) by valid_by_cases 1.
  split; [exact Hv|].
  apply freq_guess_short; [exact Hv | cbn [length]; lia].
Qed.

(** Claim C2, at a failing input.  On the valid input [x = [1, 2, 3]],
    [y = [1, 0, 1]] the spectral guess is exactly zero, and the fallback does
    not return: the search for minima raises [ValueError], where the steps
    of the claim (a window of [3 // 4 = 0] samples) give [1 / (2 * x[0])]. *)
Theorem fallback_raises_on_three_samples :
  valid_input [1; 2; 3] [1; 0; 1] /\
  f0_guess [1; 2; 3] [1; 0; 1] = Ok (Fin 0) /\
  _freq_guess [1; 2; 3] [1; 0; 1] = Raise ValueError /\
  fallback_steps [1; 2; 3] [1; 0; 1] = Fin (/ (2 * 1)).
Proof.
  assert (Hv : valid_input [1; 2; 3] [1; 0; 1]) by valid_by_cases 1.
  split; [exact Hv|].
  destruct (freq_guess_short _ _ Hv) as [Hf Hr]; [cbn [length]; lia|].
  repeat (split; [assumption|]).
  unfold fallback_steps. cbn. unfold xinv. now rewrite Reqb_false by lra.
Qed.

(** Claim C10.  When the fallback reaches its last line, that is when the
    minima [peaks] found in the smoothed data are between one and four, the
    first of them has an index of at least 1; so when [x[0] = 0] on a valid
    input, the divisor [2 * x[peaks[0]]] is not zero and the call returns the
    finite number [1 / (2 * x[peaks[0]])]. *)
Theorem first_minimum_after_first_sample (xvals yvals s : list R) (peaks : list nat) :
  valid_input xvals yvals ->
  convolve_same yvals [0.5; 0.5] = Ok s ->
  argrelmin s (length xvals / 4) = Ok peaks ->
  (length peaks =? 0)%nat || (4 <? length peaks)%nat = false ->
  exists p, nth_error peaks 0 = Some p /\ (1 <= p < length xvals)%nat /\
    (nth 0 xvals 0 = 0 ->
       2 * nth p xvals 0 <> 0 /\
       time_domain_guess xvals yvals = Ok (Fin (/ (2 * nth p xvals 0)))).
Proof.
  intros Hv Hs Hp Hc.
  assert (Ho : (1 <= length xvals / 4)%nat).
  { destruct (length xvals / 4)%nat; [discriminate | lia]. }
  destruct (argrelmin_spec s (length xvals / 4) Ho) as (peaks' & Hp' & _ & Hin).
  rewrite Hp in Hp'. injection Hp' as <-.
  destruct peaks as [|p rest]; [discriminate|].
  exists p. split; [reflexivity|].
  destruct (Hin p) as [[Hlt Hk] _]; [now left|].
  assert (Hsl : length s = length xvals).
  { destruct Hv as (Hlen & Hn & _).
    destruct (convolve_same_two 0.5 0.5 yvals) as (s' & Hs' & Hl & _); [lia|].
    congruence. }
  assert (Hp1 : (1 <= p)%nat).
  { destruct p as [|p]; [|lia]. exfalso.
    destruct (Hk 1%nat) as [_ Hm]; [lia|].
    rewrite take_clip_left in Hm by lia. lra. }
  split; [lia|]. intros H0.
  pose proof (valid_input_increasing _ _ p Hv ltac:(lia)) as Hinc.
  split; [lra|].
  unfold time_domain_guess. rewrite Hs. cbn [bind]. rewrite Hp. cbn [bind].
  rewrite Hc. cbn [nth_error lift_index bind].
  rewrite (nth_error_nth' xvals 0) by lia. cbn [lift_index bind].
  unfold xinv. now rewrite Reqb_false by lra.
Qed.

Lemma first_minimum_after_first_sample_witness :
  exists p, nth_error [2%nat] 0 = Some p /\ (1 <= p < length [0; 1; 2; 3])%nat /\
    (nth 0 [0; 1; 2; 3] 0 = 0 ->
       2 * nth p [0; 1; 2; 3] 0 <> 0 /\
       time_domain_guess [0; 1; 2; 3] [4; 0; 0; 4]
         = Ok (Fin (/ (2 * nth p [0; 1; 2; 3] 0)))).
Proof.
  apply (first_minimum_after_first_sample
           [0; 1; 2; 3] [4; 0; 0; 4]
           [4 * 0.5 + 0; 4 * 0.5 + (0 * 0.5 + 0); 0 * 0.5 + (0 * 0.5 + 0);
            0 * 0.5 + (4 * 0.5 + 0)] [2%nat]).
  - valid_by_cases 1.
  - reflexivity.
  - rewrite argrelmin_local_minima by (cbn; lia).
    f_equal. cbn [length Nat.div Nat.divmod fst]. eval_local_minima. reflexivity.
  - reflexivity.
Defined.

Lemma relmin_not_first (data : list R) (order : nat) :
  (1 <= order)%nat -> ~ is_relmin data order 0.
Proof.
  intros Ho [_ Hk]. destruct (Hk 1%nat) as [_ Hm]; [lia|].
  rewrite take_clip_left in Hm by lia. lra.
Qed.

Lemma freq_guess_returns (xvals yvals : list R) :
  length xvals = length yvals -> (4 <= length xvals)%nat ->
  exists v, _freq_guess xvals yvals = Ok v.
Proof.
  intros Hlen Hn.
  destruct (f0_guess_shape _ _ Hlen) as (k & _ & Hf); [lia|].
  destruct (time_domain_guess_spec _ _ Hlen Hn) as (s & peaks & _ & _ & _ & _ & _ & _ & Ht).
  unfold _freq_guess. rewrite Hf. cbn [bind].
  destruct (xis_zero _); [|eexists; reflexivity].
  rewrite Ht. destruct (_ || _); eexists; reflexivity.
Qed.



End Claims.

(** ** A negative guess *)

Section Pentagon.














End Pentagon.

(** ** trigonometric.py: the class CosinusoidalFit *)

Section CosinusoidalFit.

Lemma fold_left_Rmax_ge (l : list R) (v : R) :
  v <= fold_left Rmax l v /\ forall u, In u l -> u <= fold_left Rmax l v.
Proof.
  revert v. induction l as [|w l IH]; intros v; cbn.
  - split; [lra | tauto].
  - destruct (IH (Rmax v w)) as [H1 H2]. split.
    + pose proof (Rmax_l v w). lra.
    + intros u [<- | Hu]; [pose proof (Rmax_r v w); lra | auto].
Qed.

Lemma fold_left_Rmax_in (l : list R) (v : R) :
  In (fold_left Rmax l v) (v :: l).
Proof.
  revert v. induction l as [|w l IH]; intros v; cbn.
  - now left.
  - destruct (IH (Rmax v w)) as [H | H].
    + unfold Rmax in H at 1. destruct (Rle_dec v w); [right; left | left]; exact H.
    + right; right; exact H.
Qed.

(** [np.max] returns the largest entry of a non-empty array. *)
Lemma amax_spec (l : list R) :
  l <> [] ->
  exists m, amax l = Ok m /\ In m l /\ forall u, In u l -> u <= m.
Proof.
  destruct l as [|v l]; [congruence|]. intros _.
  exists (fold_left Rmax l v). split; [reflexivity|]. split.
  - apply fold_left_Rmax_in.
  - destruct (fold_left_Rmax_ge l v) as [H1 H2].
    intros u [<- | Hu]; auto.
Qed.

(** The ten phases of the sweep. *)
Lemma linspace_phases :
  length (linspace (- PI) PI 10) = 10%nat /\
  forall i, (i < 10)%nat ->
    nth i (linspace (- PI) PI 10) 0 = - PI + INR i * (2 * PI / 9).
Proof.
  unfold linspace. cbn [Nat.ltb Nat.leb seq map set_last Nat.sub].
  replace (INR 9) with 9 by (cbn; lra).
  split; [reflexivity|].
  intros i Hi.
  do 10 (destruct i as [|i]; [cbn; lra|]). lia.
Qed.

(** Property X15.  With four samples or more, [initial_guess] yields ten
    vectors that differ in their phase only: the amplitude is
    [max |y| - |mean y|], the frequency [max (0, _freq_guess (x, y))], the
    offset [mean y], and the phases are [-pi + i * 2 pi / 9], from [-pi] to
    [pi]. *)
Theorem initial_guess_vectors (xvals yvals : list R) :
  length xvals = length yvals -> (4 <= length xvals)%nat ->
  exists f m l,
    _freq_guess xvals yvals = Ok f /\
    amax (map Rabs yvals) = Ok m /\
    In m (map Rabs yvals) /\ (forall u, In u (map Rabs yvals) -> u <= m) /\
    initial_guess xvals yvals = Ok l /\
    length l = 10%nat /\
    (forall i, (i < 10)%nat ->
       nth i l [] = [Fin (m - Rabs (mean yvals)); max0 f;
                     Fin (- PI + INR i * (2 * PI / 9)); Fin (mean yvals)]) /\
    nth 2 (nth 0 l []) NaN = Fin (- PI) /\
    nth 2 (nth 9 l []) NaN = Fin PI.
Proof.
  intros Hlen Hn.
  destruct (freq_guess_returns _ _ Hlen Hn) as (f & Hf).
  destruct (amax_spec (map Rabs yvals)) as (m & Hm & Hin & Hmax).
  { destruct yvals; cbn in *; [lia | discriminate]. }
  destruct linspace_phases as [Hl Hph].
  exists f, m. eexists. repeat (split; [eassumption|]).
  unfold initial_guess. rewrite Hm, Hf. cbn [bind].
  split; [reflexivity|].
  set (vec := fun phi : R => _).
  assert (Hnth : forall i, (i < 10)%nat ->
            nth i (map vec (linspace (- PI) PI 10)) [] =
            vec (- PI + INR i * (2 * PI / 9))).
  { intros i Hi.
    rewrite (nth_indep _ [] (vec 0)) by (rewrite length_map, Hl; exact Hi).
    rewrite map_nth, Hph by exact Hi. reflexivity. }
  split; [now rewrite length_map|].
  split; [exact Hnth|].
  rewrite !Hnth by lia. unfold vec. cbn [nth]. split; f_equal; cbn; lra.
Qed.

(** Claim C4, at a failing input.  On the valid input [x = [0, 1]],
    [y = [0, 1]] the generator [initial_guess (x, y)] yields no vector: when
    it is first advanced it raises the [ValueError] of [_freq_guess]. *)
Theorem initial_guess_raises_on_two_samples :
  valid_input [0; 1] [0; 1] /\
  initial_guess [0; 1] [0; 1] = Raise ValueError.
Proof.
  assert (Hv : valid_input [0; 1] [0; 1]).
  { split; [reflexivity | split; [cbn [length]; lia |]].
    exists 1. split; [lra|]. intros i Hi. cbn [length] in Hi.
    destruct i as [|i]; [cbn [nth]; lra | lia]. }
  split; [exact Hv|].
  destruct (freq_guess_short _ _ Hv) as [_ Hr]; [cbn [length]; lia|].
  unfold initial_guess. cbn [map amax bind]. rewrite Hr. reflexivity.
Qed.

(** Claim C7.  [fit_boundary] returns the same bounds for every input:
    amplitude and offset unbounded, frequency from 0, phase from [-pi] to
    [pi]. *)
Theorem fit_boundary_fixed (xvals yvals xvals' yvals' : list R) :
  fit_boundary xvals yvals = fit_boundary xvals' yvals' /\
  fit_boundary xvals yvals =
    [(NInf, PInf); (Fin 0, PInf); (Fin (- PI), Fin PI); (NInf, PInf)].
Proof. split; reflexivity. Qed.

End CosinusoidalFit.

(** ** cal_metadata.py *)

Section Metadata.

Import String Ascii CalMetadata MetadataNotions.
Local Open Scope string_scope.
Local Open Scope list_scope.
Local Open Scope Z_scope.

Variable py : interpreter.

Example int_of_3 : int py (PyStr (str "3")) = Ok 3.
Proof. reflexivity. Qed.

Example int_of_spaced : int py (PyStr (str "  -1_000 ")) = Ok (-1000).
Proof. reflexivity. Qed.

Example int_of_a : int py (PyStr (str "a")) = Raise ValueError.
Proof. reflexivity. Qed.

Example int_of_bad_underscore : int py (PyStr (str "1__0")) = Raise ValueError.
Proof. reflexivity. Qed.

Example int_of_empty : int py (PyStr (str "")) = Raise ValueError.
Proof. reflexivity. Qed.

Example int_of_trailing : int py (PyStr (str "12 3")) = Raise ValueError.
Proof. reflexivity. Qed.

(** The file separator (code 28) is no white space for [int]. *)
Example int_of_separator : int py (PyStr [28; 49; 50]%N) = Raise ValueError.
Proof. reflexivity. Qed.

Lemma coerces_or_fails (kv : pyval * pyval) :
  (exists zz, coerces py kv zz) \/ fails py kv.
Proof.
  unfold coerces, fails. destruct kv as [key value]. cbn [fst snd].
  destruct (int py key) as [k|e]; [|right; left; eauto].
  destruct (int py value) as [v|e]; [|right; right; eauto].
  left. exists (k, v). split; reflexivity.
Qed.

Lemma coerces_not_fails (kv : pyval * pyval) (zz : Z * Z) :
  coerces py kv zz -> ~ fails py kv.
Proof.
  intros [Hk Hv] [[e He] | [e He]]; congruence.
Qed.

Lemma coerce_items_ok (items : list (pyval * pyval)) (l acc : list (Z * Z)) :
  Forall2 (coerces py) items l ->
  coerce_items py items acc = Ok (set_all l acc).
Proof.
  intros H. revert acc. induction H as [|kv zz items l [Hk Hv] _ IH]; intros acc.
  - reflexivity.
  - destruct kv as [key value]. cbn [fst snd] in Hk, Hv.
    cbn [coerce_items]. rewrite Hv, Hk. cbn [bind]. rewrite IH.
    destruct zz. reflexivity.
Qed.

Lemma coerce_items_raise (items : list (pyval * pyval)) (acc : list (Z * Z)) :
  Exists (fails py) items -> exists e, coerce_items py items acc = Raise e.
Proof.
  intros H. revert acc. induction items as [|[key value] items IH]; intros acc.
  - inversion H.
  - cbn [coerce_items].
    destruct (int py value) as [v|e] eqn:Hv; [|eexists; reflexivity].
    destruct (int py key) as [k|e] eqn:Hk; [|eexists; reflexivity].
    cbn [bind]. apply IH. inversion H as [? ? Hf | ? ? Hrest]; subst; [|exact Hrest].
    exfalso. destruct Hf as [[e He] | [e He]]; cbn [fst snd] in He; congruence.
Qed.

Lemma coerce_items_cases (items : list (pyval * pyval)) :
  (exists l, Forall2 (coerces py) items l) \/ Exists (fails py) items.
Proof.
  induction items as [|kv items [[l Hl] | Hex]].
  - left. exists []. constructor.
  - destruct (coerces_or_fails kv) as [[zz Hzz] | Hf].
    + left. exists (zz :: l). now constructor.
    + right. now constructor.
  - right. now constructor 2.
Qed.

Lemma Forall2_coerces_not_fails (items : list (pyval * pyval)) (l : list (Z * Z)) :
  Forall2 (coerces py) items l -> ~ Exists (fails py) items.
Proof.
  induction 1 as [|kv zz items l Hc _ IH]; intros Hex; inversion Hex; subst.
  - now apply (coerces_not_fails kv zz).
  - now apply IH.
Qed.

Lemma dict_get_set (d : list (Z * Z)) (k v k' : Z) :
  dict_get (dict_set d k v) k' = if k =? k' then Some v else dict_get d k'.
Proof.
  unfold dict_get. induction d as [|[k0 v0] d IH]; cbn [dict_set find fst].
  - destruct (k =? k'); reflexivity.
  - destruct (k0 =? k) eqn:Hk0; cbn [find fst].
    + apply Z.eqb_eq in Hk0 as ->. destruct (k =? k'); reflexivity.
    + destruct (k0 =? k') eqn:Hk0'; [|exact IH].
      apply Z.eqb_eq in Hk0' as ->. rewrite Z.eqb_sym, Hk0. reflexivity.
Qed.

Lemma dict_set_keys (d : list (Z * Z)) (k v : Z) :
  map fst (dict_set d k v) =
    if existsb (Z.eqb k) (map fst d) then map fst d else map fst d ++ [k].
Proof.
  induction d as [|[k0 v0] d IH]; cbn [dict_set map fst existsb app]; [reflexivity|].
  rewrite (Z.eqb_sym k k0). destruct (k0 =? k); cbn [map fst orb]; [reflexivity|].
  rewrite IH. destruct (existsb _ _); reflexivity.
Qed.

Lemma dict_set_new (d : list (Z * Z)) (k v : Z) :
  ~ In k (map fst d) -> dict_set d k v = d ++ [(k, v)].
Proof.
  induction d as [|[k0 v0] d IH]; cbn [dict_set map fst In app]; intros H; [reflexivity|].
  destruct (k0 =? k) eqn:Hk; [apply Z.eqb_eq in Hk; tauto|].
  rewrite IH by tauto. reflexivity.
Qed.

Lemma dict_set_NoDup (d : list (Z * Z)) (k v : Z) :
  NoDup (map fst d) -> NoDup (map fst (dict_set d k v)).
Proof.
  intros H. rewrite dict_set_keys. destruct (existsb _ _) eqn:He; [exact H|].
  apply NoDup_app; [exact H | repeat constructor; cbn; tauto |].
  intros a Ha [Hka | []]. subst a.
  assert (existsb (Z.eqb k) (map fst d) = true); [|congruence].
  apply existsb_exists. exists k. split; [exact Ha | apply Z.eqb_refl].
Qed.

Lemma set_all_NoDup (l acc : list (Z * Z)) :
  NoDup (map fst acc) -> NoDup (map fst (set_all l acc)).
Proof.
  revert acc. induction l as [|[k v] l IH]; intros acc H; cbn; [exact H|].
  apply IH. now apply dict_set_NoDup.
Qed.

Lemma set_all_get (l acc : list (Z * Z)) (k : Z) :
  dict_get (set_all l acc) k =
    fold_left (fun o kv => if fst kv =? k then Some (snd kv) else o) l (dict_get acc k).
Proof.
  revert acc. induction l as [|[k0 v0] l IH]; intros acc; cbn [set_all fold_left fst snd];
    [reflexivity|].
  fold (set_all l (dict_set acc k0 v0)). rewrite IH, dict_get_set. reflexivity.
Qed.

Lemma set_all_new (l acc : list (Z * Z)) :
  NoDup (map fst (acc ++ l)) -> set_all l acc = acc ++ l.
Proof.
  revert acc. induction l as [|[k v] l IH]; intros acc H; cbn [set_all fold_left fst snd].
  - now rewrite app_nil_r.
  - fold (set_all l (dict_set acc k v)).
    assert (Hk : ~ In k (map fst acc)).
    { rewrite map_app in H. cbn [map fst] in H.
      apply NoDup_remove_2 in H. intros Hin. apply H. apply in_or_app. now left. }
    rewrite dict_set_new by exact Hk.
    rewrite IH; rewrite <- app_assoc; [reflexivity | exact H].
Qed.

Lemma coerces_int_entries (d : list (Z * Z)) :
  Forall2 (coerces py) (map (fun kv => (PyInt (fst kv), PyInt (snd kv))) d) d.
Proof.
  induction d as [|[k v] d IH]; constructor; [split; reflexivity | exact IH].
Qed.

(** Claim C5.  The mapping [{'0': '3', '1': '5'}] is stored and exported as
    [{0: 3, 1: 5}], and the mapping [{'a': '1'}] makes [__init__] raise
    [ValueError].  With any non-empty [register_map], [__init__] raises
    exactly when [int] rejects some key or some value; otherwise the record
    holds a dictionary of integers, with one entry for each coerced key,
    bound to the coerced value of the last entry that has this key, and
    exported as it is stored: the list of the coerced entries when the
    coerced keys differ from one another.  A non-empty mapping from integers
    to integers is stored as it is. *)
Theorem init_coerces_register_map :
  (exists r,
     __init__ py PyNone PyNone PyNone PyNone PyNone PyNone
       (PyDict [(PyStr (str "0"), PyStr (str "3"));
                (PyStr (str "1"), PyStr (str "5"))]) = Ok r /\
     register_map r = PyDict [(PyInt 0, PyInt 3); (PyInt 1, PyInt 5)] /\
     nth_error (fst (to_dict r)) 6 =
       Some ("register_map", PyDict [(PyInt 0, PyInt 3); (PyInt 1, PyInt 5)])) /\
  __init__ py PyNone PyNone PyNone PyNone PyNone PyNone
    (PyDict [(PyStr (str "a"), PyStr (str "1"))]) = Raise ValueError /\
  (forall (nm psn xv se ei qb : pyval) (d : list (Z * Z)),
     d <> [] -> NoDup (map fst d) ->
     exists r,
       __init__ py nm psn xv se ei qb
         (PyDict (map (fun kv => (PyInt (fst kv), PyInt (snd kv))) d)) = Ok r /\
       register_map r = PyDict (map (fun kv => (PyInt (fst kv), PyInt (snd kv))) d)) /\
  (forall (nm psn xv se ei qb : pyval) (items : list (pyval * pyval)),
     items <> [] ->
     ((exists e, __init__ py nm psn xv se ei qb (PyDict items) = Raise e) <->
        Exists (fails py) items) /\
     (forall r, __init__ py nm psn xv se ei qb (PyDict items) = Ok r ->
        exists l d,
          Forall2 (coerces py) items l /\
          register_map r = PyDict (map (fun kv => (PyInt (fst kv), PyInt (snd kv))) d) /\
          In ("register_map", PyDict (map (fun kv => (PyInt (fst kv), PyInt (snd kv))) d))
             (fst (to_dict r)) /\
          NoDup (map fst d) /\
          (forall k, dict_get d k = last_binding l k) /\
          (NoDup (map fst l) -> d = l))).
Proof.
  split; [eexists; repeat split|]. split; [reflexivity|]. split.
  - intros nm psn xv se ei qb d Hne Hnd. unfold __init__.
    assert (Htruthy : truthy (PyDict (map (fun kv => (PyInt (fst kv), PyInt (snd kv))) d))
                      = true)
      by (destruct d; [congruence | reflexivity]).
    rewrite Htruthy, (coerce_items_ok _ d [] (coerces_int_entries d)). cbn [bind].
    rewrite (set_all_new d []) by exact Hnd.
    eexists. split; reflexivity.
  - intros nm psn xv se ei qb items Hne.
    assert (Htruthy : truthy (PyDict items) = true)
      by (destruct items; [congruence | reflexivity]).
    unfold __init__. rewrite Htruthy.
    destruct (coerce_items_cases items) as [[l Hl] | Hex].
    + rewrite (coerce_items_ok items l [] Hl). cbn [bind]. split.
      * split; [intros [e He]; discriminate|].
        intros Hex. exfalso. now apply (Forall2_coerces_not_fails items l).
      * intros r Hr. injection Hr as <-. exists l, (set_all l []).
        split; [exact Hl|]. split; [reflexivity|].
        split; [cbn; tauto|].
        split; [apply set_all_NoDup; constructor|].
        split; [intros k; apply set_all_get|].
        intros Hnd. now apply (set_all_new l []).
    + destruct (coerce_items_raise items [] Hex) as [e He]. rewrite He. cbn [bind].
      split; [|intros r Hr; discriminate].
      split; [intros _; exact Hex | intros _; now exists e].
Qed.

(** Claim C9.  When [register_map] is false, as the empty dictionary is,
    [__init__] skips the coercion, the record holds [None] for
    [register_map], and the export reports [None]. *)
Theorem init_falsy_register_map (nm psn xv se ei qb rm : pyval) :
  truthy rm = false ->
  exists r,
    __init__ py nm psn xv se ei qb rm = Ok r /\
    register_map r = PyNone /\
    nth_error (fst (to_dict r)) 6 = Some ("register_map", PyNone).
Proof.
  intros Hf. unfold __init__. rewrite Hf. cbn [bind].
  eexists. repeat split.
Qed.

(** Claim C6.  The export lists the seven keys in the order of the
    specification, each with the value that the record holds; the call leaves
    the record as it was, and a second call gives the same dictionary. *)
Theorem to_dict_export (self : CalibrationMetadata) :
  map fst (fst (to_dict self)) =
    ["name"; "series"; "x_values"; "pulse_schedule_name"; "exp_id"; "qubits";
     "register_map"] /\
  map snd (fst (to_dict self)) =
    [name self; series self; x_values self; pulse_schedule_name self;
     exp_id self; qubits self; register_map self] /\
  snd (to_dict self) = self /\
  fst (to_dict (snd (to_dict self))) = fst (to_dict self).
Proof. repeat split. Qed.

End Metadata.

(** The non-ASCII strings that [int] reads are those that the Unicode
    database of the interpreter allows. *)
Example int_of_arabic_indic_digit :
  CalMetadata.int MetadataNotions.sample_interpreter
    (CalMetadata.PyStr [1635]%N) = Ok 3%Z.
Proof. reflexivity. Qed.

Example int_of_no_break_space :
  CalMetadata.int MetadataNotions.sample_interpreter
    (CalMetadata.PyStr [160; 49; 50]%N) = Ok 12%Z.
Proof. reflexivity. Qed.

Example int_of_unknown_code_point :
  CalMetadata.int MetadataNotions.sample_interpreter
    (CalMetadata.PyStr [49; 233]%N) = Raise ValueError.
Proof. reflexivity. Qed.

Section MetadataWitnesses.

Import String Ascii CalMetadata MetadataNotions.
Local Open Scope string_scope.
Local Open Scope list_scope.
Local Open Scope Z_scope.

Lemma init_coerces_register_map_witness :
  ((exists e, __init__ sample_interpreter PyNone PyNone PyNone PyNone PyNone PyNone
                (PyDict [(PyStr [1635]%N, PyStr (str " 7 ")); (PyInt 3, PyBool true)])
              = Raise e) <->
     Exists (fails sample_interpreter)
            [(PyStr [1635]%N, PyStr (str " 7 ")); (PyInt 3, PyBool true)]) /\
  (forall r, __init__ sample_interpreter PyNone PyNone PyNone PyNone PyNone PyNone
               (PyDict [(PyStr [1635]%N, PyStr (str " 7 ")); (PyInt 3, PyBool true)])
             = Ok r ->
     exists l d,
       Forall2 (coerces sample_interpreter)
               [(PyStr [1635]%N, PyStr (str " 7 ")); (PyInt 3, PyBool true)] l /\
       register_map r = PyDict (map (fun kv => (PyInt (fst kv), PyInt (snd kv))) d) /\
       In ("register_map", PyDict (map (fun kv => (PyInt (fst kv), PyInt (snd kv))) d))
          (fst (to_dict r)) /\
       NoDup (map fst d) /\
       (forall k, dict_get d k = last_binding l k) /\
       (NoDup (map fst l) -> d = l)) /\
  __init__ sample_interpreter PyNone PyNone PyNone PyNone PyNone PyNone
    (PyDict [(PyStr [1635]%N, PyStr (str " 7 ")); (PyInt 3, PyBool true)])
  = Ok {| name := PyNone; pulse_schedule_name := PyNone; x_values := PyNone;
          series := PyNone; exp_id := PyNone; qubits := PyNone;
          register_map := PyDict [(PyInt 3, PyInt 1)] |}.
Proof.
  pose proof (proj2 (proj2 (proj2 (init_coerces_register_map sample_interpreter)))
                PyNone PyNone PyNone PyNone PyNone PyNone
                [(PyStr [1635]%N, PyStr (str " 7 ")); (PyInt 3, PyBool true)])
    as H.
  destruct H as [Hraise Hok]; [discriminate|].
  split; [exact Hraise|]. split; [exact Hok | reflexivity].
Defined.

Lemma init_falsy_register_map_witness :
  exists r,
    __init__ sample_interpreter (PyStr (str "rabi")) PyNone PyNone PyNone PyNone
      (PyList [PyInt 0]) (PyDict []) = Ok r /\
    register_map r = PyNone /\
    nth_error (fst (to_dict r)) 6 = Some ("register_map", PyNone).
Proof.
  apply (init_falsy_register_map sample_interpreter
           (PyStr (str "rabi")) PyNone PyNone PyNone PyNone
           (PyList [PyInt 0]) (PyDict [])).
  reflexivity.
Defined.

End MetadataWitnesses.

(** * Further properties *)

(** ** The frequency guess *)

Section MoreFreqGuess.

(** Property X1.  On every valid input with two or three samples both
    [_freq_guess] and [initial_guess] raise [ValueError]. *)
Theorem short_input_raises (xvals yvals : list R) :
  valid_input xvals yvals -> (length xvals < 4)%nat ->
  _freq_guess xvals yvals = Raise ValueError /\
  initial_guess xvals yvals = Raise ValueError.
Proof.
  intros Hv Hn. destruct (freq_guess_short _ _ Hv Hn) as [_ Hr].
  split; [exact Hr|].
  unfold initial_guess.
  destruct (amax_spec (map Rabs yvals)) as (m & Hm & _).
  { destruct Hv as (Hlen & H2 & _). destruct yvals; cbn in *; [lia | discriminate]. }
  rewrite Hm. cbn [bind]. rewrite Hr. reflexivity.
Qed.

Lemma short_input_raises_witness :
  _freq_guess [0; 0.5; 1] [1; 2; 4] = Raise ValueError /\
  initial_guess [0; 0.5; 1] [1; 2; 4] = Raise ValueError.
Proof.
  apply (short_input_raises [0; 0.5; 1] [1; 2; 4]).
  - valid_by_cases 0.5.
  - cbn [length]. lia.
Defined.

(** Property X2.  With as many [y] as [x] and four samples or more,
    whatever the order of the [x], [_freq_guess] returns: the spectral guess
    when it is not zero, and otherwise the estimate from the first relative
    minimum of the 2-tap moving average of [y]. *)
Theorem freq_guess_from_four_samples (xvals yvals : list R) :
  length xvals = length yvals -> (4 <= length xvals)%nat ->
  exists f0,
    f0_guess xvals yvals = Ok f0 /\
    _freq_guess xvals yvals =
      Ok (if xis_zero f0 then fallback_steps xvals yvals else f0).
Proof.
  intros Hlen Hn.
  destruct (f0_guess_shape _ _ Hlen) as (k & _ & Hf); [lia|].
  eexists. split; [exact Hf|].
  unfold _freq_guess. rewrite Hf. cbn [bind].
  destruct (xis_zero _); [|reflexivity].
  now apply time_domain_guess_steps.
Qed.

Lemma freq_guess_from_four_samples_witness :
  exists f0,
    f0_guess [3; 2; 2; 5] [1; 0; 0; 7] = Ok f0 /\
    _freq_guess [3; 2; 2; 5] [1; 0; 0; 7] =
      Ok (if xis_zero f0 then fallback_steps [3; 2; 2; 5] [1; 0; 0; 7] else f0).
Proof.
  apply (freq_guess_from_four_samples [3; 2; 2; 5] [1; 0; 0; 7]).
  - reflexivity.
  - cbn [length]. lia.
Defined.

(** Property X3.  On a valid input the spectral guess is [k / (n * d)] for a
    bin [k < n / 2], with [n] the number of samples and [d = x[1] - x[0]]: it
    stays below the Nyquist frequency [1 / (2 * d)].  When [k >= 1] it is the
    value that [_freq_guess] returns, and it is at least one bin width,
    [1 / (n * d)]. *)
Theorem spectral_guess_below_nyquist (xvals yvals : list R) :
  valid_input xvals yvals ->
  exists k,
    (k < length xvals / 2)%nat /\
    f0_guess xvals yvals =
      Ok (Fin (INR k / (INR (length xvals) * (nth 1 xvals 0 - nth 0 xvals 0)))) /\
    INR k / (INR (length xvals) * (nth 1 xvals 0 - nth 0 xvals 0))
      < 1 / (2 * (nth 1 xvals 0 - nth 0 xvals 0)) /\
    ((1 <= k)%nat ->
       _freq_guess xvals yvals =
         Ok (Fin (INR k / (INR (length xvals) * (nth 1 xvals 0 - nth 0 xvals 0)))) /\
       1 / (INR (length xvals) * (nth 1 xvals 0 - nth 0 xvals 0))
         <= INR k / (INR (length xvals) * (nth 1 xvals 0 - nth 0 xvals 0))).
Proof.
  intros Hv. pose proof (valid_input_spacing _ _ Hv) as Hnd.
  pose proof (valid_input_increasing _ _ 1 Hv) as Hd.
  pose proof Hv as (Hlen & Hn & _). specialize (Hd ltac:(lia)).
  destruct (f0_guess_shape _ _ Hlen Hn) as (k & Hk & Hf).
  set (d := nth 1 xvals 0 - nth 0 xvals 0) in *.
  set (n := length xvals) in *.
  assert (Hdpos : 0 < d) by (unfold d; lra).
  assert (Hnpos : 0 < INR n) by (apply lt_0_INR; lia).
  assert (Hk0 : 0 <= INR k) by apply pos_INR.
  assert (Hval : f0_guess xvals yvals = Ok (Fin (INR k / (INR n * d)))).
  { rewrite Hf. unfold xinv. rewrite Reqb_false by lra. cbn [xscale xabs].
    rewrite <- INR_IZR_INZ. do 2 f_equal. unfold Rdiv.
    apply Rabs_pos_eq. apply Rmult_le_pos; [exact Hk0|].
    apply Rlt_le, Rinv_0_lt_compat. exact Hnd. }
  assert (H2k : 2 * INR k < INR n).
  { assert (H' : (2 * k < n)%nat).
    { pose proof (Nat.div_mod_eq n 2). pose proof (Nat.mod_upper_bound n 2). lia. }
    apply lt_INR in H'. rewrite mult_INR in H'. cbn in H'. lra. }
  exists k. split; [exact Hk|]. split; [exact Hval|]. split.
  - apply (Rmult_lt_reg_r (2 * (INR n * d))); [nra|].
    field_simplify; [|lra|lra]. nra.
  - intros Hk1. assert (1 <= INR k) by (change 1 with (INR 1); apply le_INR; lia).
    split.
    + unfold _freq_guess. rewrite Hval. cbn [bind xis_zero].
      rewrite Reqb_false; [reflexivity|].
      apply Rgt_not_eq. apply Rdiv_lt_0_compat; lra.
    + unfold Rdiv. apply Rmult_le_compat_r; [|lra].
      apply Rlt_le, Rinv_0_lt_compat. exact Hnd.
Qed.

Lemma spectral_guess_below_nyquist_witness :
  exists k,
    (k < length [0; 1; 2; 3] / 2)%nat /\
    f0_guess [0; 1; 2; 3] [1; 0; 1; 0] =
      Ok (Fin (INR k / (INR (length [0; 1; 2; 3])
                        * (nth 1 [0; 1; 2; 3] 0 - nth 0 [0; 1; 2; 3] 0)))) /\
    INR k / (INR (length [0; 1; 2; 3]) * (nth 1 [0; 1; 2; 3] 0 - nth 0 [0; 1; 2; 3] 0))
      < 1 / (2 * (nth 1 [0; 1; 2; 3] 0 - nth 0 [0; 1; 2; 3] 0)) /\
    ((1 <= k)%nat ->
       _freq_guess [0; 1; 2; 3] [1; 0; 1; 0] =
         Ok (Fin (INR k / (INR (length [0; 1; 2; 3])
                           * (nth 1 [0; 1; 2; 3] 0 - nth 0 [0; 1; 2; 3] 0)))) /\
       1 / (INR (length [0; 1; 2; 3]) * (nth 1 [0; 1; 2; 3] 0 - nth 0 [0; 1; 2; 3] 0))
         <= INR k / (INR (length [0; 1; 2; 3])
                     * (nth 1 [0; 1; 2; 3] 0 - nth 0 [0; 1; 2; 3] 0))).
Proof.
  apply (spectral_guess_below_nyquist [0; 1; 2; 3] [1; 0; 1; 0]).
  valid_by_cases 1.
Defined.

Lemma sum_constant (yvals : list R) (c : R) :
  Forall (eq c) yvals -> sum yvals = INR (length yvals) * c.
Proof.
  induction 1 as [|v l <- _ IH].
  - cbn. lra.
  - change (sum (c :: l)) with (c + sum l). rewrite IH.
    change (length (c :: l)) with (S (length l)). rewrite S_INR. lra.
Qed.

Lemma mean_constant (yvals : list R) (c : R) :
  yvals <> [] -> Forall (eq c) yvals -> mean yvals = c.
Proof.
  intros Hne Hc. unfold mean. rewrite (sum_constant _ c Hc).
  assert (0 < INR (length yvals)).
  { apply lt_0_INR. destruct yvals; [congruence | cbn; lia]. }
  field. lra.
Qed.

Lemma dft_bin_zeros (n k m : nat) (a : list R) :
  Forall (eq 0) a -> dft_bin n k m a = (0, 0).
Proof.
  intros H. revert m. induction H as [|v l <- _ IH]; intros m.
  - reflexivity.
  - cbn [dft_bin]. rewrite IH. cbn [fst snd]. f_equal; ring.
Qed.

Lemma argmax_from_all_equal (t : list R) (v : R) (i bi : nat) :
  Forall (eq v) t -> argmax_from bi v i t = bi.
Proof.
  intros H. revert i bi. induction H as [|w t Hw _ IH]; intros i bi; cbn [argmax_from].
  - reflexivity.
  - subst w. rewrite Rltb_false by lra. apply IH.
Qed.

Lemma argmax_all_equal (l : list R) (v : R) :
  Forall (eq v) l -> l <> [] -> argmax l = Ok 0%nat.
Proof.
  intros H Hne. destruct H as [|b t Hb Ht]; [congruence|].
  subst b. cbn [argmax]. f_equal. now apply argmax_from_all_equal.
Qed.

Lemma In_firstn {A : Type} (n : nat) (l : list A) (a : A) :
  In a (firstn n l) -> In a l.
Proof.
  intros H. rewrite <- (firstn_skipn n l). apply in_or_app. now left.
Qed.

(** When the centred data vanish, the spectral guess is zero. *)
Lemma f0_guess_constant (xvals yvals : list R) (c : R) :
  valid_input xvals yvals -> Forall (eq c) yvals ->
  f0_guess xvals yvals = Ok (Fin 0).
Proof.
  intros Hv Hc. pose proof (valid_input_spacing _ _ Hv) as Hnd.
  destruct Hv as (Hlen & Hn & _).
  assert (Hne : yvals <> []) by (destruct yvals; cbn in *; [lia | discriminate]).
  unfold f0_guess. rewrite (mean_constant _ c Hne Hc).
  assert (Hz : Forall (eq 0) (map (fun v => v - c) yvals)).
  { apply Forall_map. eapply Forall_impl; [|exact Hc]. intros v <-. cbn. lra. }
  rewrite fft_ok by (destruct yvals; [congruence | discriminate]).
  destruct xvals as [|x0 [|x1 xs]]; cbn [length] in Hn; try lia.
  cbn [nth_error lift_index bind]. cbn [nth] in Hnd.
  rewrite fftfreq_length.
  set (n := length (x0 :: x1 :: xs)) in *. change (2 <= n)%nat in Hn.
  assert (Hhalf : (1 <= n / 2)%nat)
    by (change 1%nat with (2 / 2)%nat; apply Nat.Div0.div_le_mono; exact Hn).
  rewrite (argmax_all_equal _ 0).
  - cbn [bind]. rewrite fftfreq_nth by lia. cbn [lift_index bind].
    unfold xinv. rewrite Reqb_false by lra. cbn [xscale xabs Z.of_nat].
    rewrite Rmult_0_l, Rabs_R0. reflexivity.
  - apply Forall_map. apply Forall_forall. intros z Hz'.
    apply In_firstn in Hz'. apply in_map_iff in Hz' as (k & <- & _).
    rewrite dft_bin_zeros by exact Hz. unfold Cabs. cbn [fst snd].
    replace (0 * 0 + 0 * 0) with 0 by ring. now rewrite sqrt_0.
  - rewrite length_map in *. rewrite <- Hlen.
    intros Hnil. apply (f_equal (@length R)) in Hnil.
    rewrite length_map, length_firstn, length_map, length_seq in Hnil.
    cbn [length] in Hnil. pose proof (Nat.div_mod_eq n 2). lia.
Qed.

Lemma moving_average_nth (yvals : list R) (i : nat) :
  (i < length yvals)%nat ->
  nth i (moving_average yvals) 0 =
    0.5 * nth i yvals 0 + 0.5 * (if (i =? 0)%nat then 0 else nth (i - 1) yvals 0).
Proof. intros Hi. unfold moving_average. now rewrite nth_map_seq. Qed.

Lemma Forall_eq_nth (l : list R) (c : R) (i : nat) :
  Forall (eq c) l -> (i < length l)%nat -> nth i l 0 = c.
Proof.
  intros H Hi. rewrite Forall_forall in H. symmetry. apply H. now apply nth_In.
Qed.

(** Flat data have no relative minimum after smoothing. *)
Lemma local_minima_constant (yvals : list R) (c : R) (w : nat) :
  Forall (eq c) yvals -> (1 <= w)%nat ->
  local_minima (moving_average yvals) w = [].
Proof.
  intros Hc Hw. unfold local_minima.
  set (s := moving_average yvals).
  assert (Hsl : length s = length yvals) by apply moving_average_length.
  assert (Hnone : forall i, In i (seq 0 (length s)) ->
            forallb (below_neighbours s i) (seq 1 w) = false).
  { intros i Hi. apply in_seq in Hi.
    destruct w as [|w]; [lia|]. cbn [seq forallb].
    apply andb_false_intro1. unfold below_neighbours.
    destruct (Nat.eq_dec i 0) as [-> | Hi0].
    - apply andb_false_intro2. rewrite (take_clip_left s (Z.of_nat 0 - Z.of_nat 1)) by lia.
      rewrite take_clip_inside by lia. apply Rltb_false. lra.
    - apply andb_false_intro1. rewrite take_clip_inside by lia.
      destruct (Nat.eq_dec (S i) (length s)) as [Hlast | Hmid].
      + rewrite (take_clip_at s _ i) by lia. apply Rltb_false. lra.
      + rewrite (take_clip_at s _ (S i)) by lia.
        unfold s. rewrite !moving_average_nth by lia.
        replace (i =? 0)%nat with false by (symmetry; apply Nat.eqb_neq; lia).
        cbn [Nat.eqb]. rewrite !(Forall_eq_nth yvals c) by (try exact Hc; lia).
        apply Rltb_false. lra. }
  induction (seq 0 (length s)) as [|i l IH]; [reflexivity|].
  cbn [filter]. rewrite Hnone by now left. apply IH.
  intros j Hj. apply Hnone. now right.
Qed.

(** Property X4.  On a valid input with four samples or more whose [y] are
    all zero, [_freq_guess] returns 0. *)
Theorem zero_signal_gives_zero (xvals yvals : list R) :
  valid_input xvals yvals -> (4 <= length xvals)%nat ->
  Forall (eq 0) yvals ->
  _freq_guess xvals yvals = Ok (Fin 0).
Proof.
  intros Hv Hn Hc.
  rewrite (fallback_follows_steps _ _ Hv Hn (f0_guess_constant _ _ 0 Hv Hc)).
  unfold fallback_steps. rewrite (local_minima_constant _ 0) by
    (try exact Hc; change 1%nat with (4 / 4)%nat; apply Nat.Div0.div_le_mono; exact Hn).
  reflexivity.
Qed.

Lemma zero_signal_gives_zero_witness :
  _freq_guess [0; 1; 2; 3; 4] [0; 0; 0; 0; 0] = Ok (Fin 0).
Proof.
  apply (zero_signal_gives_zero [0; 1; 2; 3; 4] [0; 0; 0; 0; 0]).
  - valid_by_cases 1.
  - cbn [length]. lia.
  - repeat constructor.
Defined.

Lemma relmin_not_last (data : list R) (order i : nat) :
  (1 <= order)%nat -> is_relmin data order i -> (S i < length data)%nat.
Proof.
  intros Ho [Hi Hk]. destruct (Nat.eq_dec (S i) (length data)) as [Hlast|]; [|lia].
  exfalso. destruct (Hk 1%nat) as [Hp _]; [lia|].
  rewrite (take_clip_at data _ i) in Hp by lia. lra.
Qed.

Lemma valid_input_monotone (xvals yvals : list R) (i j : nat) :
  valid_input xvals yvals -> (i <= j < length xvals)%nat ->
  nth i xvals 0 <= nth j xvals 0.
Proof.
  intros Hv Hij. destruct (valid_input_nth _ _ Hv) as (step & Hstep & Hnth).
  rewrite (Hnth i), (Hnth j) by lia.
  assert (INR i <= INR j) by (apply le_INR; lia). nra.
Qed.

(** Property X6.  On a valid input with four samples or more and
    [x[0] >= 0], the fallback returns either 0 or [1 / (2 * x[p])] for an
    index [p] that is neither the first nor the last sample, so that the
    estimate lies between [1 / (2 * x[n-2])] and [1 / (2 * x[1])]. *)
Theorem time_domain_guess_range (xvals yvals : list R) :
  valid_input xvals yvals -> (4 <= length xvals)%nat -> 0 <= nth 0 xvals 0 ->
  exists v, time_domain_guess xvals yvals = Ok v /\
    (v = Fin 0 \/
     exists p, (1 <= p <= length xvals - 2)%nat /\
       v = Fin (/ (2 * nth p xvals 0)) /\
       / (2 * nth (length xvals - 2) xvals 0) <= / (2 * nth p xvals 0)
         <= / (2 * nth 1 xvals 0)).
Proof.
  intros Hv Hn Hx0. pose proof Hv as (Hlen & _).
  destruct (time_domain_guess_spec _ _ Hlen Hn)
    as (s & peaks & _ & _ & Hsl & _ & _ & Hin & Ht).
  rewrite Ht. destruct (_ || _) eqn:Hc; [exists (Fin 0); split; [reflexivity | now left]|].
  destruct peaks as [|p rest]; [discriminate Hc|]. cbn [hd].
  eexists. split; [reflexivity|]. right.
  assert (Ho : (1 <= length xvals / 4)%nat)
    by (change 1%nat with (4 / 4)%nat; apply Nat.Div0.div_le_mono; exact Hn).
  destruct (Hin p) as [Hrel _]. specialize (Hrel ltac:(now left)).
  pose proof (relmin_not_last _ _ _ Ho Hrel) as Hlast.
  assert (Hp1 : (1 <= p)%nat).
  { destruct p; [|lia]. exfalso. now apply (relmin_not_first s (length xvals / 4) Ho). }
  exists p. split; [lia|].
  pose proof (valid_input_increasing _ _ 1 Hv ltac:(lia)) as H1.
  pose proof (valid_input_monotone _ _ 1 p Hv ltac:(lia)) as H1p.
  pose proof (valid_input_monotone _ _ p (length xvals - 2) Hv ltac:(lia)) as Hpn.
  split.
  - unfold xinv. now rewrite Reqb_false by lra.
  - split; apply Rinv_le_contravar; lra.
Qed.

Lemma time_domain_guess_range_witness :
  exists v, time_domain_guess [0; 1; 2; 3] [4; 0; 0; 4] = Ok v /\
    (v = Fin 0 \/
     exists p, (1 <= p <= length [0; 1; 2; 3] - 2)%nat /\
       v = Fin (/ (2 * nth p [0; 1; 2; 3] 0)) /\
       / (2 * nth (length [0; 1; 2; 3] - 2) [0; 1; 2; 3] 0)
         <= / (2 * nth p [0; 1; 2; 3] 0)
         <= / (2 * nth 1 [0; 1; 2; 3] 0)).
Proof.
  apply (time_domain_guess_range [0; 1; 2; 3] [4; 0; 0; 4]).
  - valid_by_cases 1.
  - cbn [length]. lia.
  - cbn [nth]. lra.
Defined.

End MoreFreqGuess.

(** ** The class CosinusoidalFit *)

Section MoreCosinusoidalFit.

Import Bounds.

Lemma max0_nonnegative (v : xreal) : xle (Fin 0) (max0 v) /\ xle (max0 v) PInf.
Proof.
  unfold max0. destruct v as [r| | |]; cbn [xpos xle]; try (split; [lra | exact I]); auto.
  destruct (Rltb 0 r) eqn:Hr; cbn [xle].
  - apply Rltb_spec in Hr. split; [lra | exact I].
  - split; [lra | exact I].
Qed.

Lemma linspace_phases_range (phi : R) :
  In phi (linspace (- PI) PI 10) -> - PI <= phi <= PI.
Proof.
  intros Hin. destruct linspace_phases as [Hl Hnth].
  apply (In_nth _ _ 0) in Hin as (i & Hi & <-). rewrite Hl in Hi.
  rewrite Hnth by exact Hi. pose proof PI_RGT_0.
  assert (0 <= INR i) by apply pos_INR.
  assert (INR i <= 9).
  { replace 9 with (INR 9) by (cbn; lra). apply le_INR. lia. }
  nra.
Qed.

(** Property X7.  With four samples or more, each of the ten vectors of
    [initial_guess] lies within the bounds of [fit_boundary]: the frequency
    is never negative and never a NaN, and the phase is between [-pi] and
    [pi]. *)
Theorem initial_guess_within_bounds (xvals yvals : list R) :
  length xvals = length yvals -> (4 <= length xvals)%nat ->
  exists l, initial_guess xvals yvals = Ok l /\
    length l = 10%nat /\
    Forall (fun vec => within_bounds vec (fit_boundary xvals yvals)) l.
Proof.
  intros Hlen Hn.
  destruct (freq_guess_returns _ _ Hlen Hn) as (f & Hf).
  destruct (amax_spec (map Rabs yvals)) as (m & Hm & _).
  { destruct yvals; cbn in *; [lia | discriminate]. }
  unfold initial_guess. rewrite Hm, Hf. cbn [bind].
  eexists. split; [reflexivity|]. split.
  - rewrite length_map. apply linspace_phases.
  - apply Forall_map, Forall_forall. intros phi Hphi.
    apply linspace_phases_range in Hphi. destruct (max0_nonnegative f) as [H0 Hinf].
    unfold within_bounds, fit_boundary.
    repeat (apply Forall2_cons;
            [split; cbn [fst snd xle]; first [exact I | assumption | lra]|]).
    apply Forall2_nil.
Qed.

Lemma initial_guess_within_bounds_witness :
  exists l, initial_guess [0; 1; 2; 3] [1; 0; 1; 0] = Ok l /\
    length l = 10%nat /\
    Forall (fun vec => within_bounds vec (fit_boundary [0; 1; 2; 3] [1; 0; 1; 0])) l.
Proof.
  apply (initial_guess_within_bounds [0; 1; 2; 3] [1; 0; 1; 0]).
  - reflexivity.
  - cbn [length]. lia.
Defined.

(** Property X9.  [fit_function] raises [IndexError] when it is given fewer
    than four parameters; otherwise it returns one value for each entry of
    [x], each between [offset - |amplitude|] and [offset + |amplitude|]. *)
Theorem fit_function_range (xvals args : list R) :
  ((length args < 4)%nat /\ fit_function xvals args = Raise IndexError) \/
  ((4 <= length args)%nat /\
   exists out, fit_function xvals args = Ok out /\
     length out = length xvals /\
     Forall (fun v => nth 3 args 0 - Rabs (nth 0 args 0) <= v
                      <= nth 3 args 0 + Rabs (nth 0 args 0)) out).
Proof.
  destruct args as [|a [|f [|phi [|b rest]]]];
    try (left; split; [cbn [length]; lia | reflexivity]).
  right. split; [cbn [length]; lia|].
  unfold fit_function. cbn [nth_error lift_index bind nth].
  eexists. split; [reflexivity|]. split; [apply length_map|].
  apply Forall_map, Forall_forall. intros x _.
  pose proof (COS_bound (2 * PI * f * x + phi)) as [Hlo Hhi].
  unfold Rabs. destruct (Rcase_abs a); nra.
Qed.

(** Property X10.  [fit_function] is unchanged when the signs of the
    frequency and of the phase are both changed. *)
Theorem fit_function_sign_symmetry (xvals : list R) (a f phi b : R) :
  fit_function xvals [a; - f; - phi; b] = fit_function xvals [a; f; phi; b].
Proof.
  unfold fit_function. cbn [nth_error lift_index bind].
  f_equal. apply map_ext. intros x.
  replace (2 * PI * - f * x + - phi) with (- (2 * PI * f * x + phi)) by ring.
  now rewrite cos_neg.
Qed.

Lemma initial_guess_vectors_witness :
  exists f m l,
    _freq_guess [0; 1; 2; 3] [1; 0; 1; 0] = Ok f /\
    amax (map Rabs [1; 0; 1; 0]) = Ok m /\
    In m (map Rabs [1; 0; 1; 0]) /\ (forall u, In u (map Rabs [1; 0; 1; 0]) -> u <= m) /\
    initial_guess [0; 1; 2; 3] [1; 0; 1; 0] = Ok l /\
    length l = 10%nat /\
    (forall i, (i < 10)%nat ->
       nth i l [] = [Fin (m - Rabs (mean [1; 0; 1; 0])); max0 f;
                     Fin (- PI + INR i * (2 * PI / 9)); Fin (mean [1; 0; 1; 0])]) /\
    nth 2 (nth 0 l []) NaN = Fin (- PI) /\
    nth 2 (nth 9 l []) NaN = Fin PI.
Proof.
  apply (initial_guess_vectors [0; 1; 2; 3] [1; 0; 1; 0]).
  - reflexivity.
  - cbn [length]. lia.
Defined.

End MoreCosinusoidalFit.

(** ** The calibration record *)

Section MoreMetadata.

Import String Ascii CalMetadata MetadataNotions.
Local Open Scope string_scope.
Local Open Scope list_scope.
Local Open Scope Z_scope.

Variable py : interpreter.

Lemma dict_set_nonempty (d : list (Z * Z)) (k v : Z) : dict_set d k v <> [].
Proof. destruct d as [|[k0 v0] d]; cbn; [|destruct (k0 =? k)]; discriminate. Qed.

Lemma set_all_nonempty (l acc : list (Z * Z)) :
  l <> [] \/ acc <> [] -> set_all l acc <> [].
Proof.
  revert acc. induction l as [|[k v] l IH]; intros acc H; cbn.
  - destruct H; [congruence | assumption].
  - apply IH. right. apply dict_set_nonempty.
Qed.

(** Property X11.  A record that [__init__] has built is rebuilt as it is
    from its own fields: the coercion of [register_map] leaves a coerced
    map unchanged. *)
Theorem init_of_exported_fields
        (nm psn xv se ei qb rm : pyval) (r : CalibrationMetadata) :
  __init__ py nm psn xv se ei qb rm = Ok r ->
  __init__ py (name r) (pulse_schedule_name r) (x_values r) (series r)
           (exp_id r) (qubits r) (register_map r) = Ok r.
Proof.
  unfold __init__ at 1. intros H.
  destruct (truthy rm) eqn:Ht.
  - destruct rm as [| | | | | | |items]; try discriminate H.
    destruct (coerce_items_cases py items) as [[l Hl] | Hex].
    + rewrite (coerce_items_ok py items l [] Hl) in H. cbn [bind] in H.
      injection H as <-. unfold __init__. cbn [register_map].
      assert (Hne : set_all l [] <> []).
      { apply set_all_nonempty. left. intros ->. inversion Hl; subst. discriminate Ht. }
      assert (Htr : truthy (int_dict (set_all l [])) = true).
      { unfold int_dict. cbn [truthy]. destruct (set_all l []); [congruence | reflexivity]. }
      rewrite Htr. unfold int_dict at 1.
      rewrite (coerce_items_ok py _ (set_all l []) [] (coerces_int_entries py _)). cbn [bind].
      rewrite (set_all_new (set_all l []) [])
        by (cbn [app]; apply set_all_NoDup; constructor).
      reflexivity.
    + destruct (coerce_items_raise py items [] Hex) as [e He].
      rewrite He in H. discriminate H.
  - cbn [bind] in H. injection H as <-. reflexivity.
Qed.

Lemma coerce_items_app (pre rest : list (pyval * pyval)) (l acc : list (Z * Z)) :
  Forall2 (coerces py) pre l ->
  coerce_items py (pre ++ rest) acc = coerce_items py rest (set_all l acc).
Proof.
  intros H. revert acc. induction H as [|[key value] [k v] pre l [Hk Hv] _ IH]; intros acc.
  - reflexivity.
  - cbn [fst snd] in Hk, Hv. cbn [app coerce_items]. rewrite Hv, Hk. cbn [bind].
    apply IH.
Qed.

(** Property X12.  [__init__] raises the exception of the first entry of
    [register_map] that [int] rejects, and for this entry the exception of
    its value when the value is rejected, of its key otherwise. *)
Theorem init_first_failure
        (nm psn xv se ei qb key value : pyval) (pre post : list (pyval * pyval))
        (l : list (Z * Z)) (e : exn) :
  Forall2 (coerces py) pre l ->
  int py value = Raise e \/ ((exists v, int py value = Ok v) /\ int py key = Raise e) ->
  __init__ py nm psn xv se ei qb (PyDict (pre ++ (key, value) :: post)) = Raise e.
Proof.
  intros Hpre Hfail. unfold __init__.
  assert (Ht : truthy (PyDict (pre ++ (key, value) :: post)) = true).
  { cbn [truthy]. rewrite length_app. cbn [List.length].
    destruct (List.length pre + S (List.length post))%nat eqn:Hl; [lia | reflexivity]. }
  rewrite Ht, (coerce_items_app pre _ l [] Hpre). cbn [coerce_items].
  destruct Hfail as [Hv | [[v Hv] Hk]]; rewrite Hv; cbn [bind]; [reflexivity|].
  rewrite Hk. reflexivity.
Qed.

(** Property X13.  When [__init__] returns a record, its export holds the
    six fields other than [register_map] as they were passed, under the keys
    [name], [series], [x_values], [pulse_schedule_name], [exp_id] and
    [qubits]. *)
Theorem export_of_constructed
        (nm psn xv se ei qb rm : pyval) (r : CalibrationMetadata) :
  __init__ py nm psn xv se ei qb rm = Ok r ->
  firstn 6 (fst (to_dict r)) =
    [("name", nm); ("series", se); ("x_values", xv);
     ("pulse_schedule_name", psn); ("exp_id", ei); ("qubits", qb)].
Proof.
  unfold __init__. intros H.
  destruct (if truthy rm then _ else _) as [rm'|e]; [|discriminate H].
  cbn [bind] in H. injection H as <-. reflexivity.
Qed.

Lemma fold_last_binding (l : list (Z * Z)) (k v : Z) (o : option Z) :
  fold_left (fun o kv => if fst kv =? k then Some (snd kv) else o) (l ++ [(k, v)]) o
    = Some v.
Proof. rewrite fold_left_app. cbn. now rewrite Z.eqb_refl. Qed.

Lemma dict_set_length (d : list (Z * Z)) (k v : Z) :
  (List.length (dict_set d k v) <= S (List.length d))%nat.
Proof.
  induction d as [|[k0 v0] d IH]; cbn [dict_set List.length]; [lia|].
  destruct (k0 =? k); cbn [List.length]; lia.
Qed.

Lemma set_all_length (l acc : list (Z * Z)) :
  (List.length (set_all l acc) <= List.length acc + List.length l)%nat.
Proof.
  unfold set_all. revert acc.
  induction l as [|[k v] l IH]; intros acc; cbn [fold_left fst snd List.length].
  - lia.
  - pose proof (IH (dict_set acc k v)). pose proof (dict_set_length acc k v). lia.
Qed.

(** Property X14.  When every entry of [register_map] is coerced, the
    stored map binds the coerced key of the last entry to its coerced value,
    and has at most as many entries as [register_map]. *)
Theorem last_entry_wins
        (nm psn xv se ei qb key value : pyval) (items : list (pyval * pyval))
        (l : list (Z * Z)) (k v : Z) :
  Forall2 (coerces py) items l -> int py key = Ok k -> int py value = Ok v ->
  exists r d,
    __init__ py nm psn xv se ei qb (PyDict (items ++ [(key, value)])) = Ok r /\
    register_map r = int_dict d /\
    dict_get d k = Some v /\
    (List.length d <= S (List.length items))%nat.
Proof.
  intros Hl Hk Hv. unfold __init__.
  assert (Ht : truthy (PyDict (items ++ [(key, value)])) = true).
  { cbn [truthy]. rewrite length_app. cbn [List.length].
    destruct (List.length items + 1)%nat eqn:Hlen; [lia | reflexivity]. }
  assert (Hall : Forall2 (coerces py) (items ++ [(key, value)]) (l ++ [(k, v)])).
  { apply Forall2_app; [exact Hl|]. repeat constructor; assumption. }
  rewrite Ht, (coerce_items_ok py _ _ [] Hall). cbn [bind].
  eexists. exists (set_all (l ++ [(k, v)]) []). split; [reflexivity|].
  split; [reflexivity|]. split.
  - rewrite set_all_get. apply fold_last_binding.
  - pose proof (set_all_length (l ++ [(k, v)]) []) as Hlen.
    rewrite length_app, <- (Forall2_length Hl) in Hlen. cbn [List.length] in Hlen. lia.
Qed.

End MoreMetadata.

Section MoreMetadataWitnesses.

Import String Ascii CalMetadata MetadataNotions.
Local Open Scope string_scope.
Local Open Scope list_scope.
Local Open Scope Z_scope.

Lemma init_of_exported_fields_witness :
  __init__ sample_interpreter (PyStr (str "rabi")) PyNone PyNone PyNone PyNone (PyList [PyInt 0])
           (PyDict [(PyInt 0, PyInt 2)])
  = Ok {| name := PyStr (str "rabi"); pulse_schedule_name := PyNone;
          x_values := PyNone; series := PyNone; exp_id := PyNone;
          qubits := PyList [PyInt 0];
          register_map := PyDict [(PyInt 0, PyInt 2)] |}.
Proof.
  apply (init_of_exported_fields sample_interpreter
           (PyStr (str "rabi")) PyNone PyNone PyNone PyNone (PyList [PyInt 0])
           (PyDict [(PyStr (str "0"), PyStr (str "1")); (PyInt 0, PyBool true); (PyStr (str " 0"), PyInt 2)])
           {| name := PyStr (str "rabi"); pulse_schedule_name := PyNone;
              x_values := PyNone; series := PyNone; exp_id := PyNone;
              qubits := PyList [PyInt 0];
              register_map := PyDict [(PyInt 0, PyInt 2)] |}).
  reflexivity.
Defined.

Lemma init_first_failure_witness :
  __init__ sample_interpreter PyNone PyNone PyNone PyNone PyNone PyNone
    (PyDict ([(PyStr (str "0"), PyStr (str "3"))] ++ (PyStr (str "a"), PyNone) :: [(PyStr (str "b"), PyStr (str "c"))]))
  = Raise TypeError.
Proof.
  apply (init_first_failure sample_interpreter PyNone PyNone PyNone PyNone PyNone PyNone
           (PyStr (str "a")) PyNone [(PyStr (str "0"), PyStr (str "3"))] [(PyStr (str "b"), PyStr (str "c"))]
           [(0, 3)] TypeError).
  - repeat constructor.
  - left. reflexivity.
Defined.

Lemma export_of_constructed_witness :
  firstn 6 (fst (to_dict {| name := PyStr (str "rabi"); pulse_schedule_name := PyStr (str "x90p");
                            x_values := PyDict [(PyStr (str "amp"), PyFloat (Numpy.Fin 1))];
                            series := PyInt 0; exp_id := PyStr (str "e1");
                            qubits := PyList [PyInt 0]; register_map := PyNone |})) =
    [("name", PyStr (str "rabi")); ("series", PyInt 0);
     ("x_values", PyDict [(PyStr (str "amp"), PyFloat (Numpy.Fin 1))]);
     ("pulse_schedule_name", PyStr (str "x90p")); ("exp_id", PyStr (str "e1"));
     ("qubits", PyList [PyInt 0])].
Proof.
  apply (export_of_constructed sample_interpreter
           (PyStr (str "rabi")) (PyStr (str "x90p")) (PyDict [(PyStr (str "amp"), PyFloat (Numpy.Fin 1))])
           (PyInt 0) (PyStr (str "e1")) (PyList [PyInt 0]) PyNone).
  reflexivity.
Defined.

Lemma last_entry_wins_witness :
  exists r d,
    __init__ sample_interpreter PyNone PyNone PyNone PyNone PyNone PyNone
      (PyDict ([(PyStr (str "0"), PyInt 1); (PyStr (str "1"), PyInt 5)] ++ [(PyInt 0, PyInt 2)]))
      = Ok r /\
    register_map r = int_dict d /\
    dict_get d 0 = Some 2 /\
    (List.length d <= S (List.length [(PyStr (str "0"), PyInt 1); (PyStr (str "1"), PyInt 5)]))%nat.
Proof.
  apply (last_entry_wins sample_interpreter PyNone PyNone PyNone PyNone PyNone PyNone
           (PyInt 0) (PyInt 2) [(PyStr (str "0"), PyInt 1); (PyStr (str "1"), PyInt 5)]
           [(0, 1); (1, 5)] 0 2).
  - repeat constructor.
  - reflexivity.
  - reflexivity.
Defined.

End MoreMetadataWitnesses.
